(** * ReconocimientoFacial: the face-authorization pipeline

    A shallow embedding of [face_recognition_app/face_recognition_model.py]
    (class [FaceRecognitionSystem]: [detect_face], [predict], [draw_result])
    and of the two API views of [face_recognition_app/views.py]
    ([recognize_face], [verify_face_stream]).

    Modelling choices.
    - Probabilities, thresholds and gaps are rationals ([Q]): the order
      comparisons and the subtraction of the source are exact here, rounding
      of binary floating point is not modelled.
    - A numpy image is a list of rows of pixels; a python slice follows the
      python rules for negative and out-of-range bounds.
    - Python exceptions are an error monad ([Result]).
    - The pretrained collaborators (Haar cascade, FaceNet, the classifier,
      the label encoder) are the fields of the system record; the OpenCV
      drawing, resizing and grayscale routines are operations of a class.
    - [np.argsort] with its default kind is modelled by insertion sort on the
      indices, which is what numpy's introsort runs on arrays of at most 16
      elements; it is a stable sort.
    - Frames that are drawn on live in a store of buffers addressed by
      references, so that aliasing and in-place drawing are visible. *)

From Stdlib Require Import QArith Qround Qabs Lqa.
From stdpp Require Import base option list sorting strings gmap pretty.

Local Open Scope Z_scope.

(** ** Exceptions *)

Inductive exn : Type :=
  | IndexError
  | TypeError
  | ValueError
  | Cv2Error
  | LoadError (what : string).

Inductive Result (A : Type) : Type :=
  | Ok (a : A)
  | Raise (e : exn).
Arguments Ok {A} a.
Arguments Raise {A} e.

Definition rbind {A B} (m : Result A) (k : A → Result B) : Result B :=
  match m with
  | Ok a => k a
  | Raise e => Raise e
  end.

Notation "'let!' x ':=' m 'in' k" := (rbind m (λ x, k))
  (at level 10, x pattern, m at level 100, k at level 200,
   format "'[v' 'let!'  x  ':='  m  'in' '/' k ']'").

Definition is_ok {A} (m : Result A) : bool :=
  match m with Ok _ => true | Raise _ => false end.

(** [l[i]] for a non-negative index: [IndexError] out of range. *)
Definition getitem {A} (l : list A) (i : nat) : Result A :=
  match l !! i with
  | Some a => Ok a
  | None => Raise IndexError
  end.

Fixpoint rmapM {A B} (f : A → Result B) (l : list A) : Result (list B) :=
  match l with
  | [] => Ok []
  | a :: l' => let! b := f a in let! bs := rmapM f l' in Ok (b :: bs)
  end.

(** ** Numbers *)

(** [a < b] on numbers. *)
Definition Qltb (a b : Q) : bool := negb (Qle_bool b a).

(** Rounding to the nearest integer, ties to even, as the float formatter. *)
Definition round_half_even (q : Q) : Z :=
  let f := Qfloor q in
  let r := (q - inject_Z f)%Q in
  if Qltb r (1 # 2) then f
  else if Qltb (1 # 2) r then f + 1
  else if Z.even f then f else f + 1.

Fixpoint zero_pad (width : nat) (s : string) : string :=
  match width with
  | O => s
  | S w => if decide (String.length s < S w)%nat
           then zero_pad w ("0" +:+ s) else s
  end.

(** The format specification [.d%]: the value times 100, [d] decimals, then
    a percent sign; the sign of a negative value is kept. *)
Definition format_percent (d : nat) (q : Q) : string :=
  let p := 10 ^ Z.of_nat d in
  let n := round_half_even (Qabs q * inject_Z 100 * inject_Z p)%Q in
  let sign := if Qltb q 0 then "-" else "" in
  let frac := match d with
              | O => ""
              | S _ => "." +:+ zero_pad d (pretty (n mod p))
              end in
  sign +:+ pretty (n / p) +:+ frac +:+ "%".

(** ** numpy *)

Module np.

(** [prediction[idx]] for an index produced by [argsort]. *)
Definition at_ (v : list Q) (i : nat) : Q := default 0%Q (v !! i).

(** Insertion of the index [i] in front of an ascending list of later
    indices: it passes exactly the entries with a strictly smaller value. *)
Fixpoint insert_idx (v : list Q) (i : nat) (s : list nat) : list nat :=
  match s with
  | [] => [i]
  | j :: s' => if Qltb (at_ v j) (at_ v i)
               then j :: insert_idx v i s'
               else i :: j :: s'
  end.

Definition sort_idx (v : list Q) (idxs : list nat) : list nat :=
  foldr (insert_idx v) [] idxs.

(** [np.argsort(v)]: the indices of [v] in ascending order of value. *)
Definition argsort (v : list Q) : list nat := sort_idx v (seq 0 (length v)).

End np.

(** [l[-k:]] *)
Definition last_n {A} (k : nat) (l : list A) : list A :=
  drop (length l - k)%nat l.

(** [np.argsort(prediction)[-3:][::-1]] *)
Definition top_3_indices (prediction : list Q) : list nat :=
  reverse (last_n 3 (np.argsort prediction)).

(** ** Images, boxes and the collaborators *)

Definition Pixel : Type := Z * Z * Z.
Definition Image : Type := list (list Pixel).
Definition GrayImage : Type := list (list Z).
Definition Box : Type := Z * Z * Z * Z.
Definition Embedding : Type := list Q.

(** [image.shape[0]] and [image.shape[1]] *)
Definition shape0 {A} (img : list (list A)) : Z := Z.of_nat (length img).
Definition shape1 {A} (img : list (list A)) : Z :=
  match img with
  | [] => 0
  | row :: _ => Z.of_nat (length row)
  end.

(** The OpenCV routines whose pixel arithmetic is not part of this
    repository. The drawing routines are given as the new content of the
    buffer they draw on. *)
Class OpenCV := {
  cv2_BGR2GRAY : Image → GrayImage;
  cv2_resize : Image → Z * Z → Image;
  cv2_putText : Image → string → Z * Z → Q → Pixel → Z → Image;
  cv2_rectangle : Image → Z * Z → Z * Z → Pixel → Z → Image
}.

(** [cv2.cvtColor(image, cv2.COLOR_BGR2RGB)] *)
Definition BGR2RGB (image : Image) : Image :=
  map (map (λ '(b, g, r), (r, g, b))) image.

(** [cv2.resize] refuses an empty source. *)
Definition resize `{OpenCV} (src : Image) (dsize : Z * Z) : Result Image :=
  if decide (shape0 src = 0 ∨ shape1 src = 0) then Raise Cv2Error
  else Ok (cv2_resize src dsize).

Record FaceRecognitionSystem := {
  (** [facenet_model.embeddings(batch)] *)
  facenet_model : list Image → list Embedding;
  (** [classifier_model.predict(embeddings, verbose=0)] *)
  classifier_model : list Embedding → list (list Q);
  (** [label_encoder.classes_] *)
  label_encoder : list string;
  (** [face_cascade.detectMultiScale(gray, scaleFactor, minNeighbors, minSize)] *)
  face_cascade : GrayImage → Q → Z → Z * Z → list Box
}.

(** What the loaders called by the constructor find. *)
Record Loaders := {
  FaceNet : Result (list Image → list Embedding);
  load_model : string → Result (list Embedding → list (list Q));
  pickle_load : string → Result (list string);
  CascadeClassifier : string → GrayImage → Q → Z → Z * Z → list Box
}.

Definition __init__ (env : Loaders) (model_path label_encoder_path : string)
    : Result FaceRecognitionSystem :=
  let! facenet := FaceNet env in
  let! classifier := load_model env model_path in
  let! encoder := pickle_load env label_encoder_path in
  Ok {| facenet_model := facenet;
        classifier_model := classifier;
        label_encoder := encoder;
        face_cascade :=
          CascadeClassifier env "haarcascade_frontalface_default.xml" |}.

(** ** Slices *)

(** A slice bound as python normalises it for a sequence of length [n]. *)
Definition slice_bound (n i : Z) : Z :=
  if decide (i < 0) then Z.max 0 (i + n) else Z.min i n.

(** The indices read by [l[start:stop]] in a sequence of length [n]. *)
Definition slice_indices (n start stop : Z) : list Z :=
  let s := slice_bound n start in
  let e := slice_bound n stop in
  seqZ s (e - s).

(** [l[start:stop]] *)
Definition slice {A} (l : list A) (start stop : Z) : list A :=
  let n := Z.of_nat (length l) in
  let s := slice_bound n start in
  let e := slice_bound n stop in
  take (Z.to_nat (e - s)) (drop (Z.to_nat s) l).

(** [img[top:bottom, left:right]] *)
Definition slice2 {A} (img : list (list A)) (top bottom left right : Z)
    : list (list A) :=
  (λ row, slice row left right) <$> slice img top bottom.

(** ** detect_face *)

Definition area (face : Box) : Z := let '(_, _, w, h) := face in w * h.

(** [max(faces, key=...)]: the first face of maximal key. *)
Fixpoint max_by {A} (key : A → Z) (best : A) (rest : list A) : A :=
  match rest with
  | [] => best
  | a :: rest' => max_by key (if decide (key best < key a) then a else best) rest'
  end.

Definition padding : Z := 20.

Definition crop_top (y : Z) : Z := Z.max 0 (y - padding).
Definition crop_left (x : Z) : Z := Z.max 0 (x - padding).
Definition crop_bottom (rows y h : Z) : Z := Z.min rows (y + h + padding).
Definition crop_right (cols x w : Z) : Z := Z.min cols (x + w + padding).

(** The pixel coordinates (row, column) read by the crop of a box. *)
Definition crop_coords (image : Image) (face : Box) : list (Z * Z) :=
  let '(x, y, w, h) := face in
  let img_rgb := BGR2RGB image in
  r ← slice_indices (shape0 img_rgb) (crop_top y) (crop_bottom (shape0 img_rgb) y h);
  c ← slice_indices (shape1 img_rgb) (crop_left x) (crop_right (shape1 img_rgb) x w);
  [(r, c)].

Definition face_crop (image : Image) (face : Box) : Image :=
  let '(x, y, w, h) := face in
  let img_rgb := BGR2RGB image in
  let top := crop_top y in
  let left := crop_left x in
  let bottom := crop_bottom (shape0 img_rgb) y h in
  let right := crop_right (shape1 img_rgb) x w in
  slice2 img_rgb top bottom left right.

Definition detect_face `{OpenCV} (self : FaceRecognitionSystem) (image : Image)
    : Result (option (Image * Box)) :=
  let gray := cv2_BGR2GRAY image in
  let faces := face_cascade self gray 1.1 5 (60, 60) in
  match faces with
  | [] => Ok None
  | first :: others =>
      let face := max_by area first others in
      let! face_resized := resize (face_crop image face) (160, 160) in
      Ok (Some (face_resized, face))
  end.

(** ** predict *)

(** An entry of [top_predictions]: the keys ['class'] and ['confidence']. *)
Record Prediction := {
  class : string;
  class_confidence : Q
}.

(** The dictionary returned by [predict]. *)
Record AuthDecision := {
  name : string;
  confidence : Q;
  confidence_gap : Q;
  face_detected : bool;
  face_box : option Box;
  authorized : bool;
  top_predictions : list Prediction;
  rejection_reasons : list string
}.

(** The defaults of the keyword arguments of [predict]. *)
Definition default_threshold : Q := 0.80.
Definition default_min_confidence_gap : Q := 0.20.

Definition confidence_too_low (confidence threshold : Q) : string :=
  "confidence_too_low_" +:+ format_percent 2 confidence
    +:+ "<" +:+ format_percent 0 threshold.

Definition gap_too_small (confidence_gap min_confidence_gap : Q) : string :=
  "gap_too_small_" +:+ format_percent 2 confidence_gap
    +:+ "<" +:+ format_percent 0 min_confidence_gap.

Definition no_face_decision : AuthDecision :=
  {| name := "No se detectó rostro";
     confidence := 0;
     confidence_gap := 0;
     face_detected := false;
     face_box := None;
     authorized := false;
     top_predictions := [];
     rejection_reasons := ["no_face_detected"] |}.

(** The entry of [top_predictions] for the index [idx]. *)
Definition entry (self : FaceRecognitionSystem) (prediction : list Q)
    (idx : nat) : Result Prediction :=
  let! c := getitem (label_encoder self) idx in
  Ok {| class := c; class_confidence := np.at_ prediction idx |}.

(** The part of [predict] that follows the classifier: from the probability
    vector [prediction] and the detected box to the decision. *)
Definition decide_identity (self : FaceRecognitionSystem) (face_box : Box)
    (prediction : list Q) (threshold min_confidence_gap : Q)
    : Result AuthDecision :=
  let top_3_indices := top_3_indices prediction in
  let! top_predictions :=
    rmapM (entry self prediction) top_3_indices in
  let! predicted_class := getitem top_3_indices 0 in
  let confidence := np.at_ prediction predicted_class in
  let! confidence_gap :=
    if decide (1 < length top_3_indices)%nat then
      let! i0 := getitem top_3_indices 0 in
      let! i1 := getitem top_3_indices 1 in
      Ok (np.at_ prediction i0 - np.at_ prediction i1)%Q
    else Ok confidence in
  let rejection_reasons := [] in
  let rejection_reasons :=
    if Qltb confidence threshold
    then rejection_reasons ++ [confidence_too_low confidence threshold]
    else rejection_reasons in
  let rejection_reasons :=
    if Qltb confidence_gap min_confidence_gap
    then rejection_reasons ++ [gap_too_small confidence_gap min_confidence_gap]
    else rejection_reasons in
  let authorized := bool_decide (length rejection_reasons = 0%nat) in
  let! (name, rejection_reasons) :=
    if negb authorized then Ok ("Desconocido", rejection_reasons)
    else let! c := getitem (label_encoder self) predicted_class in
         Ok (c, ["authorized"]) in
  Ok {| name := name;
        confidence := confidence;
        confidence_gap := confidence_gap;
        face_detected := true;
        face_box := Some face_box;
        authorized := authorized;
        top_predictions := top_predictions;
        rejection_reasons := rejection_reasons |}.

(** The classifier's output for a face: [classifier.predict(embedding)[0]]. *)
Definition classify (self : FaceRecognitionSystem) (face_resized : Image)
    : Result (list Q) :=
  let face_batch := [face_resized] in
  let embedding := facenet_model self face_batch in
  getitem (classifier_model self embedding) 0.

Definition predict `{OpenCV} (self : FaceRecognitionSystem) (image : Image)
    (threshold min_confidence_gap : Q) : Result AuthDecision :=
  let! detection := detect_face self image in
  match detection with
  | None => Ok no_face_decision
  | Some (face_resized, face_box) =>
      let! prediction := classify self face_resized in
      decide_identity self face_box prediction threshold min_confidence_gap
  end.

(** ** draw_result *)

(** Frame buffers live in a store; a frame handed to a function is a
    reference into it. *)
Definition ref : Type := positive.
Abbreviation Store := (gmap positive Image).

Definition deref (σ : Store) (r : ref) : Image := default [] (σ !! r).

(** [image.copy()]: a new buffer with the same content. *)
Definition copy (image : ref) (σ : Store) : ref * Store :=
  let r := fresh (dom σ) in
  (r, <[r := deref σ image]> σ).

(** A drawing routine called on the buffer [r]: it writes in place. *)
Definition draw_on (r : ref) (f : Image → Image) (σ : Store) : Store :=
  <[r := f (deref σ r)]> σ.

Definition red : Pixel := (0, 0, 255).
Definition green : Pixel := (0, 255, 0).
Definition orange : Pixel := (0, 165, 255).
Definition white : Pixel := (255, 255, 255).

Definition draw_result `{OpenCV} (image : ref) (result : AuthDecision)
    (σ : Store) : Result ref * Store :=
  let '(img_copy, σ) := copy image σ in
  if negb (face_detected result) then
    let σ := draw_on img_copy
               (λ b, cv2_putText b (name result) (10, 30) 0.8 red 2) σ in
    (Ok img_copy, σ)
  else
    match face_box result with
    | None => (Raise TypeError, σ)
    | Some (x, y, w, h) =>
        let color := if authorized result then green else orange in
        let σ := draw_on img_copy
                   (λ b, cv2_rectangle b (x, y) (x + w, y + h) color 2) σ in
        let name_text := name result in
        let conf_text := "Confianza: " +:+ format_percent 1 (confidence result) in
        let text_y := if decide (40 < y) then y - 10 else y + h + 25 in
        let σ := draw_on img_copy
                   (λ b, cv2_rectangle b (x, text_y - 25) (x + w, text_y + 5)
                           color (-1)) σ in
        let σ := draw_on img_copy
                   (λ b, cv2_putText b name_text (x + 5, text_y - 10)
                           0.6 white 2) σ in
        let σ := draw_on img_copy
                   (λ b, cv2_putText b conf_text (x + 5, text_y + 5)
                           0.4 white 1) σ in
        (Ok img_copy, σ)
    end.

(** ** The API views *)

Definition MODEL_PATH : string :=
  "EntrenamientoModelo/models/best_classifier_model.h5".
Definition LABEL_ENCODER_PATH : string :=
  "EntrenamientoModelo/models/label_encoder.pkl".

(** A value stored in the session dictionary. *)
Inductive pyval : Type :=
  | PyBool (b : bool)
  | PyStr (s : string).

(** The module-level [face_system] and the session of the request. *)
Record ServerState := {
  face_system : option FaceRecognitionSystem;
  session : gmap string pyval
}.

(** What the body of a request amounts to once the view has parsed the JSON,
    removed the data-URL prefix, decoded the base64 text and called
    [cv2.imdecode]. *)
Inductive RequestBody : Type :=
  | BodyRaises (e : exn)
  | BodyNoImage
  | BodyUndecodable
  | BodyFrame (image : Image).

Inductive JsonResponse : Type :=
  (** status 400, with the error text *)
  | BadRequest (error : string)
  (** status 500, with [str(e)] *)
  | ServerError (e : exn)
  (** the answer of [recognize_face] *)
  | Recognition (authorized : bool) (name : string) (confidence : Q)
      (confidence_gap : Q) (top_predictions : list Prediction)
      (rejection_reasons : list string) (message : string)
  (** the answer of [verify_face_stream] *)
  | Verification (name : string) (confidence : Q) (authorized : bool)
      (face_detected : bool).

Definition get_face_system (env : Loaders) (face_system : option FaceRecognitionSystem)
    : Result FaceRecognitionSystem * option FaceRecognitionSystem :=
  match face_system with
  | Some system => (Ok system, face_system)
  | None =>
      match __init__ env MODEL_PATH LABEL_ENCODER_PATH with
      | Ok system => (Ok system, Some system)
      | Raise e => (Raise e, None)
      end
  end.

(** The frame of a request, or the response that ends the view early. *)
Definition frame_of (request : RequestBody) : JsonResponse + Image :=
  match request with
  | BodyRaises e => inl (ServerError e)
  | BodyNoImage => inl (BadRequest "No se recibió imagen")
  | BodyUndecodable => inl (BadRequest "No se pudo decodificar la imagen")
  | BodyFrame image => inr image
  end.

(** The condition under which [recognize_face] opens a session. *)
Definition grants_session (result : AuthDecision) : bool :=
  authorized result && bool_decide (name result ≠ "Desconocido").

Definition recognize_face `{OpenCV} (env : Loaders) (now : string)
    (request : RequestBody) (st : ServerState) : JsonResponse * ServerState :=
  let '(got, global) := get_face_system env (face_system st) in
  let st := {| face_system := global; session := session st |} in
  match got with
  | Raise e => (ServerError e, st)
  | Ok system =>
      match frame_of request with
      | inl response => (response, st)
      | inr image =>
          match predict system image 0.80 0.20 with
          | Raise e => (ServerError e, st)
          | Ok result =>
              if grants_session result then
                let session :=
                  <["login_time" := PyStr now]>
                    (<["user_name" := PyStr (name result)]>
                       (<["authenticated" := PyBool true]> (session st))) in
                (Recognition true (name result) (confidence result)
                   (confidence_gap result) (top_predictions result)
                   (rejection_reasons result)
                   ("¡Bienvenido/a " +:+ name result +:+ "!"),
                 {| face_system := global; session := session |})
              else
                (Recognition false (name result) (confidence result)
                   (confidence_gap result) (top_predictions result)
                   (rejection_reasons result)
                   "Acceso denegado. Persona no reconocida.",
                 st)
          end
      end
  end.

(** The decision computed by [verify_face_stream] for a decoded frame: the
    call [system.predict(image, threshold=0.75)], the gap left at its
    default. *)
Definition verify_decision `{OpenCV} (system : FaceRecognitionSystem)
    (image : Image) : Result AuthDecision :=
  predict system image 0.75 default_min_confidence_gap.

Definition verify_face_stream `{OpenCV} (env : Loaders)
    (request : RequestBody) (st : ServerState) : JsonResponse * ServerState :=
  let '(got, global) := get_face_system env (face_system st) in
  let st := {| face_system := global; session := session st |} in
  match got with
  | Raise e => (ServerError e, st)
  | Ok system =>
      match frame_of request with
      | inl response => (response, st)
      | inr image =>
          match verify_decision system image with
          | Raise e => (ServerError e, st)
          | Ok result =>
              (Verification (name result) (confidence result)
                 (authorized result) (face_detected result), st)
          end
      end
  end.

(** ** The session views *)

(** The truth value of a python value in a condition. *)
Definition truthy (v : pyval) : bool :=
  match v with
  | PyBool b => b
  | PyStr s => bool_decide (s ≠ "")
  end.

(** [session.get(key, default)] *)
Definition session_get (session : gmap string pyval) (key : string)
    (dflt : pyval) : pyval :=
  default dflt (session !! key).

(** What the page views answer: a redirect to a named route, or a template
    rendered with a context. *)
Inductive HttpResponse : Type :=
  | Redirect (to : string)
  | Render (template : string) (context : gmap string pyval).

Definition index (session : gmap string pyval) : HttpResponse :=
  if truthy (session_get session "authenticated" (PyBool false))
  then Redirect "dashboard"
  else Render "face_recognition_app/login.html" ∅.

Definition dashboard (session : gmap string pyval) : HttpResponse :=
  if negb (truthy (session_get session "authenticated" (PyBool false)))
  then Redirect "index"
  else
    let user_name := session_get session "user_name" (PyStr "Usuario") in
    let context : gmap string pyval :=
      <["login_time" := session_get session "login_time" (PyStr "")]>
        (<["user_name" := user_name]> ∅) in
    Render "face_recognition_app/dashboard.html" context.

(** [request.session.flush()] empties the session. *)
Definition logout_view (session : gmap string pyval)
    : HttpResponse * gmap string pyval :=
  (Redirect "index", ∅).

(** The JSON object answered by [check_session]. *)
Record SessionStatus := {
  status_authenticated : pyval;
  status_user_name : pyval
}.

Definition check_session (session : gmap string pyval) : SessionStatus :=
  {| status_authenticated := session_get session "authenticated" (PyBool false);
     status_user_name := session_get session "user_name" (PyStr "") |}.

(** ** The routes *)

Inductive View : Type :=
  | view_index
  | view_dashboard
  | view_logout_view
  | view_recognize_face
  | view_verify_face_stream
  | view_check_session.

(** [path(route, view, name=url_name)] *)
Record URLPattern := {
  route : string;
  view : View;
  url_name : string
}.

Definition urlpatterns : list URLPattern :=
  [ {| route := ""; view := view_index; url_name := "index" |};
    {| route := "dashboard/"; view := view_dashboard; url_name := "dashboard" |};
    {| route := "logout/"; view := view_logout_view; url_name := "logout" |};
    {| route := "api/recognize/"; view := view_recognize_face;
       url_name := "recognize_face" |};
    {| route := "api/verify/"; view := view_verify_face_stream;
       url_name := "verify_face" |};
    {| route := "api/check-session/"; view := view_check_session;
       url_name := "check_session" |} ].

(** The pattern that serves a path: the first whose route is the path. *)
Definition resolve (path : string) : option URLPattern :=
  head (filter (λ p, route p = path) urlpatterns).

(** The route registered under a name, as [redirect(name)] looks it up. *)
Definition reverse_url (name : string) : option string :=
  route <$> head (filter (λ p, url_name p = name) urlpatterns).

(** ** Well-formed inputs *)

(** Every row of the image has the width of the first one. *)
Definition rectangular (image : Image) : Prop :=
  Forall (λ row, Z.of_nat (length row) = shape1 image) image.

(** A box of positive size that lies inside the image. *)
Definition in_frame (image : Image) (face : Box) : Prop :=
  let '(x, y, w, h) := face in
  0 ≤ x ∧ 0 ≤ y ∧ 0 < w ∧ 0 < h
  ∧ x + w ≤ shape1 image ∧ y + h ≤ shape0 image.

(** The markers collected by the two checks, in the order of the source. *)
Definition collected (confidence confidence_gap threshold min_confidence_gap : Q)
    : list string :=
  (if Qltb confidence threshold
   then [confidence_too_low confidence threshold] else [])
  ++ (if Qltb confidence_gap min_confidence_gap
      then [gap_too_small confidence_gap min_confidence_gap] else []).

(** The total mass of a probability vector. *)
Definition Qsum (v : list Q) : Q := foldr Qplus 0%Q v.

(** ** Sample data *)

(** A stand-in for OpenCV: gray is the mean of the channels, resizing keeps
    the source, and the drawing routines mark the pixels they are anchored
    at. *)
Definition paint (b : Image) (pt : Z * Z) (color : Pixel) : Image :=
  let '(x, y) := pt in
  alter (λ row, <[Z.to_nat x := color]> row) (Z.to_nat y) b.

Definition sample_cv2 : OpenCV :=
  {| cv2_BGR2GRAY := map (map (λ '(b, g, r), (b + g + r) / 3));
     cv2_resize := λ src _, src;
     cv2_putText := λ b _ org _ color _, paint b org color;
     cv2_rectangle := λ b pt1 pt2 color _, paint (paint b pt1 color) pt2 color |}.

(** A frame of 80 rows and 100 columns. *)
Definition sample_frame : Image := replicate 80 (replicate 100 (10, 20, 30)).

(** A face box whose padded crop passes the top, bottom and right edges. *)
Definition sample_face : Box := (30, 10, 60, 60).

(** A system whose detector finds [faces], whose classifier answers
    [probabilities], and whose label encoder holds [labels]. *)
Definition sample_system (faces : list Box) (probabilities : list Q)
    (labels : list string) : FaceRecognitionSystem :=
  {| facenet_model := map (λ _, []);
     classifier_model := map (λ _, probabilities);
     label_encoder := labels;
     face_cascade := λ _ _ _ _, faces |}.

Definition sample_loaders (system : FaceRecognitionSystem) : Loaders :=
  {| FaceNet := Ok (facenet_model system);
     load_model := λ _, Ok (classifier_model system);
     pickle_load := λ _, Ok (label_encoder system);
     CascadeClassifier := λ _, face_cascade system |}.

(** A system with three labels that rates the sample face 0.05, 0.92 and
    0.03, and the decision [predict] returns for it at 0.80 and 0.20. *)
Definition alice_system : FaceRecognitionSystem :=
  sample_system [sample_face] [0.05; 0.92; 0.03]%Q ["Bob"; "Alice"; "Carol"].

Definition alice_decision : AuthDecision :=
  {| name := "Alice";
     confidence := 0.92;
     confidence_gap := 0.92 - 0.05;
     face_detected := true;
     face_box := Some sample_face;
     authorized := true;
     top_predictions :=
       [{| class := "Alice"; class_confidence := 0.92 |};
        {| class := "Bob"; class_confidence := 0.05 |};
        {| class := "Carol"; class_confidence := 0.03 |}];
     rejection_reasons := ["authorized"] |}.

(** A system that rates the sample face 0.40, 0.35 and 0.25, and the
    decision [predict] returns for it at 0.80 and 0.20. *)
Definition unsure_system : FaceRecognitionSystem :=
  sample_system [sample_face] [0.40; 0.35; 0.25]%Q ["Ana"; "Bea"; "Cruz"].

Definition unsure_decision : AuthDecision :=
  {| name := "Desconocido";
     confidence := 0.40;
     confidence_gap := 0.40 - 0.35;
     face_detected := true;
     face_box := Some sample_face;
     authorized := false;
     top_predictions :=
       [{| class := "Ana"; class_confidence := 0.40 |};
        {| class := "Bea"; class_confidence := 0.35 |};
        {| class := "Cruz"; class_confidence := 0.25 |}];
     rejection_reasons :=
       ["confidence_too_low_40.00%<80%"; "gap_too_small_5.00%<20%"] |}.

(** The decision for a frame without a face, as a value to draw. *)
Definition sample_store : Store := {[ 1%positive := sample_frame ]}.

(** Loaders that fail at the first step. *)
Definition broken_loaders : Loaders :=
  {| FaceNet := Raise (LoadError "facenet");
     load_model := λ _, Raise (LoadError "model");
     pickle_load := λ _, Raise (LoadError "encoder");
     CascadeClassifier := λ _ _ _ _ _, [] |}.

(** ** Orders on label indices *)

(** [ascending v a b]: the index [a] comes before [b] when the indices are
    ordered by increasing value, equal values by increasing index. *)
Definition ascending (v : list Q) (a b : nat) : Prop :=
  (np.at_ v a < np.at_ v b)%Q ∨ ((np.at_ v a == np.at_ v b)%Q ∧ (a < b)%nat).


(** * Properties *)

(** ** The error monad *)

Lemma rbind_Ok {A B} (m : Result A) (k : A → Result B) b :
  rbind m k = Ok b ↔ ∃ a, m = Ok a ∧ k a = Ok b.
Proof.
  destruct m as [a|e]; simpl; split.
  - eauto.
  - by intros (a' & [= <-] & ?).
  - discriminate.
  - by intros (a' & ? & _).
Qed.

Lemma getitem_Ok {A} (l : list A) i a : getitem l i = Ok a ↔ l !! i = Some a.
Proof. unfold getitem. destruct (l !! i); split; congruence. Qed.

Lemma getitem_lt {A} (l : list A) i :
  (i < length l)%nat → ∃ a, getitem l i = Ok a.
Proof.
  intros Hi. destruct (lookup_lt_is_Some_2 l i Hi) as [a Ha].
  exists a. by apply getitem_Ok.
Qed.


Lemma rmapM_length {A B} (f : A → Result B) l bs :
  rmapM f l = Ok bs → length bs = length l.
Proof.
  revert bs. induction l as [|a l IH]; simpl; intros bs.
  - by intros [= <-].
  - rewrite rbind_Ok. intros (b & _ & H). apply rbind_Ok in H.
    destruct H as (bs' & Hbs & [= <-]). simpl. f_equal. by apply IH.
Qed.

(** ** Comparisons *)

Lemma Qltb_lt a b : Qltb a b = true ↔ (a < b)%Q.
Proof.
  unfold Qltb. rewrite negb_true_iff, <- not_true_iff_false, Qle_bool_iff.
  split; [apply Qnot_le_lt | apply Qlt_not_le].
Qed.

Lemma Qltb_ge a b : Qltb a b = false ↔ (b <= a)%Q.
Proof. unfold Qltb. by rewrite negb_false_iff, Qle_bool_iff. Qed.

(** ** Sorting the indices *)

Section argsort.
Variable v : list Q.

#[local] Instance ascending_trans : Transitive (ascending v).
Proof.
  intros a b c [Hab|[Hab Iab]] [Hbc|[Hbc Ibc]]; unfold ascending.
  - left. by apply Qlt_trans with (np.at_ v b).
  - left. by rewrite <- Hbc.
  - left. by rewrite Hab.
  - right. split; [by rewrite Hab | lia].
Qed.

Lemma insert_idx_perm i s : np.insert_idx v i s ≡ₚ i :: s.
Proof.
  induction s as [|j s IH]; simpl; [done|].
  destruct (Qltb _ _); [|done].
  rewrite IH. apply Permutation_swap.
Qed.

Lemma sort_idx_perm idxs : np.sort_idx v idxs ≡ₚ idxs.
Proof.
  induction idxs as [|i idxs IH]; simpl; [done|].
  by rewrite insert_idx_perm, IH.
Qed.

Lemma argsort_perm : np.argsort v ≡ₚ seq 0 (length v).
Proof. apply sort_idx_perm. Qed.


Lemma elem_of_argsort i : i ∈ np.argsort v ↔ (i < length v)%nat.
Proof. rewrite argsort_perm, elem_of_seq. lia. Qed.

Lemma insert_idx_sorted i s :
  StronglySorted (ascending v) s →
  Forall (λ j, (i < j)%nat) s →
  StronglySorted (ascending v) (np.insert_idx v i s).
Proof.
  induction 1 as [|j s Hs IH Hj]; intros Hi; simpl.
  - repeat constructor.
  - apply Forall_cons in Hi as [Hij Hi].
    destruct (Qltb (np.at_ v j) (np.at_ v i)) eqn:Hlt.
    + apply Qltb_lt in Hlt.
      constructor; [by apply IH|].
      rewrite insert_idx_perm. constructor; [by left|done].
    + apply Qltb_ge in Hlt.
      assert (ascending v i j) as Hasc.
      { apply Qle_lt_or_eq in Hlt as [?|?]; [by left|by right]. }
      constructor; [by constructor|].
      constructor; [done|].
      eapply Forall_impl; [exact Hj|]. intros k Hk. by etrans.
Qed.

Lemma sort_idx_sorted idxs :
  StronglySorted lt idxs → StronglySorted (ascending v) (np.sort_idx v idxs).
Proof.
  induction 1 as [|i idxs _ IH Hi]; simpl; [constructor|].
  apply insert_idx_sorted; [done|]. by rewrite sort_idx_perm.
Qed.

Lemma seq_sorted j n : StronglySorted lt (seq j n).
Proof.
  revert j. induction n as [|n IH]; intros j; simpl; constructor; [done|].
  apply Forall_forall. intros k Hk%elem_of_seq. lia.
Qed.

Lemma argsort_sorted : StronglySorted (ascending v) (np.argsort v).
Proof. apply sort_idx_sorted, seq_sorted. Qed.

(** The stable ascending order of the indices is unique: every stable sort
    of the indices produces the list of [np.argsort]. *)
Lemma argsort_unique l :
  l ≡ₚ seq 0 (length v) → StronglySorted (ascending v) l → l = np.argsort v.
Proof.
  intros Hperm Hsorted.
  apply (StronglySorted_unique_strong (ascending v)); [|done|apply argsort_sorted|].
  - intros a b _ _ [Hab|[Hab Iab]] [Hba|[Hba Iba]]; try lra. lia.
  - by rewrite argsort_perm.
Qed.

End argsort.

Lemma StronglySorted_drop {A} (R : relation A) n l :
  StronglySorted R l → StronglySorted R (drop n l).
Proof.
  intros Hl. rewrite <- (take_drop n l) in Hl.
  by apply StronglySorted_app in Hl as (_ & _ & ?).
Qed.

Lemma StronglySorted_reverse {A} (R : relation A) l :
  StronglySorted R l → StronglySorted (flip R) (reverse l).
Proof.
  induction 1 as [|a l _ IH Ha]; [constructor|].
  rewrite reverse_cons. apply StronglySorted_app_2; [|done|repeat constructor].
  intros x y Hx ->%list_elem_of_singleton.
  rewrite elem_of_reverse in Hx.
  rewrite Forall_forall in Ha. unfold flip. by apply Ha.
Qed.


(** ** The top three *)



(** The order by value does not depend on how the sort orders equal values:
    the last three of any list of indices ascending by value, reversed, are
    descending by value. *)
Lemma top_of_ascending_indices (v : list Q) (s : list nat) :
  StronglySorted (λ a b, np.at_ v a <= np.at_ v b)%Q s →
  StronglySorted (λ a b, np.at_ v b <= np.at_ v a)%Q (reverse (last_n 3 s)).
Proof.
  intros Hs. unfold last_n.
  by apply (StronglySorted_reverse (λ a b, np.at_ v a <= np.at_ v b)%Q),
           StronglySorted_drop.
Qed.

Lemma top_3_indices_bound v i : i ∈ top_3_indices v → (i < length v)%nat.
Proof.
  unfold top_3_indices, last_n. rewrite elem_of_reverse.
  intros Hi. apply elem_of_argsort.
  eapply elem_of_sublist; [exact Hi|apply sublist_drop].
Qed.

Lemma top_3_indices_NoDup v : NoDup (top_3_indices v).
Proof.
  unfold top_3_indices, last_n. rewrite reverse_Permutation.
  eapply sublist_NoDup; [|apply sublist_drop].
  rewrite argsort_perm. apply NoDup_seq.
Qed.

(** ** The decision *)

Section decision.
Variables (self : FaceRecognitionSystem) (box : Box) (p : list Q).
Variables (t g : Q).

Lemma decide_identity_inv d :
  decide_identity self box p t g = Ok d →
  ∃ i0,
    top_3_indices p !! 0%nat = Some i0 ∧
    confidence d = np.at_ p i0 ∧
    confidence_gap d =
      match top_3_indices p !! 1%nat with
      | Some i1 => (np.at_ p i0 - np.at_ p i1)%Q
      | None => np.at_ p i0
      end ∧
    face_detected d = true ∧
    face_box d = Some box ∧
    rmapM (entry self p) (top_3_indices p) = Ok (top_predictions d) ∧
    let r := collected (confidence d) (confidence_gap d) t g in
    (r = [] ∧ authorized d = true ∧ rejection_reasons d = ["authorized"]
       ∧ label_encoder self !! i0 = Some (name d))
    ∨ (r ≠ [] ∧ authorized d = false ∧ rejection_reasons d = r
       ∧ name d = "Desconocido").
Proof.
  unfold decide_identity.
  intros (tops & Htops & H)%rbind_Ok.
  apply rbind_Ok in H as (i0 & Hi0%getitem_Ok & H).
  apply rbind_Ok in H as (gap & Hgap & H).
  exists i0.
  assert (gap = match top_3_indices p !! 1%nat with
                | Some i1 => (np.at_ p i0 - np.at_ p i1)%Q
                | None => np.at_ p i0
                end) as Egap.
  { destruct (decide _) as [Hlen|Hlen].
    - apply rbind_Ok in Hgap as (i0' & Hi0'%getitem_Ok & Hgap).
      apply rbind_Ok in Hgap as (i1 & Hi1%getitem_Ok & [= <-]).
      rewrite Hi1. congruence.
    - injection Hgap as <-.
      by rewrite (lookup_ge_None_2 (top_3_indices p) 1) by lia. }
  clear Hgap. unfold collected.
  destruct (Qltb (np.at_ p i0) t) eqn:E1, (Qltb gap g) eqn:E2; simpl in H;
    try (injection H as <-; simpl; rewrite <- Egap, E1, E2;
         repeat (split; [done|]); right; by repeat split).
  apply rbind_Ok in H as ([nm rs] & (c & Hc%getitem_Ok & [= <- <-])%rbind_Ok & H).
  injection H as <-; simpl. rewrite <- Egap, E1, E2.
  repeat (split; [done|]). by left.
Qed.


End decision.

(** ** predict *)

Section predict.
Context `{OpenCV}.

Lemma predict_inv self image t g d :
  predict self image t g = Ok d →
  (detect_face self image = Ok None ∧ d = no_face_decision)
  ∨ ∃ face_resized box p,
      detect_face self image = Ok (Some (face_resized, box)) ∧
      classify self face_resized = Ok p ∧
      decide_identity self box p t g = Ok d.
Proof.
  unfold predict. intros ([[face_resized box]|] & Hdet & Hd)%rbind_Ok.
  - right. apply rbind_Ok in Hd as (p & Hp & Hd).
    by exists face_resized, box, p.
  - left. split; congruence.
Qed.


Lemma detect_face_None self image :
  face_cascade self (cv2_BGR2GRAY image) 1.1 5 (60, 60) = [] →
  detect_face self image = Ok None.
Proof. unfold detect_face. by intros ->. Qed.

End predict.

Lemma confidence_too_low_not_sentinel c t : confidence_too_low c t ≠ "authorized".
Proof. discriminate. Qed.

Lemma gap_too_small_not_sentinel c g : gap_too_small c g ≠ "authorized".
Proof. discriminate. Qed.


Lemma collected_length c gap t g :
  collected c gap t g ≠ [] →
  (length (collected c gap t g) = 1 ∨ length (collected c gap t g) = 2)%nat.
Proof.
  unfold collected. destruct (Qltb c t), (Qltb gap g); simpl; auto. done.
Qed.

Lemma collected_not_sentinel c gap t g : collected c gap t g ≠ ["authorized"].
Proof.
  unfold collected. destruct (Qltb c t), (Qltb gap g); simpl; try discriminate.
Qed.

(** ** The two states of a decision *)

Section verdict.
Context `{OpenCV}.

(** C1. Every decision returned by [predict] is in exactly one of two
    states: authorized, with [rejection_reasons] the one-element list
    ["authorized"], or not authorized, with one or two reasons; the list
    of reasons is never empty. *)
Theorem predict_authorized_iff_sentinel self image t g d :
  predict self image t g = Ok d →
  (authorized d = true ↔ rejection_reasons d = ["authorized"])
  ∧ (rejection_reasons d ≠ ["authorized"] →
     authorized d = false
     ∧ (length (rejection_reasons d) = 1 ∨ length (rejection_reasons d) = 2)%nat)
  ∧ rejection_reasons d ≠ [].
Proof.
  intros [[_ ->]|(face & box & p & _ & _ & Hd)]%predict_inv.
  - simpl. split_and!; [split|..]; try discriminate. auto.
  - apply decide_identity_inv in Hd
      as (i0 & _ & _ & _ & _ & _ & _ &
          [(Hr & -> & -> & _)|(Hr & -> & -> & _)]).
    + split_and!; [done|done|discriminate].
    + pose proof (collected_not_sentinel (confidence d) (confidence_gap d) t g).
      split_and!; [split; [discriminate|done]| |done].
      intros _. split; [done|]. by apply collected_length.
Qed.

(** C2. A frame in which the cascade finds no face yields the short-circuit
    decision, field for field. *)
Theorem predict_no_face self image t g :
  face_cascade self (cv2_BGR2GRAY image) 1.1 5 (60, 60) = [] →
  predict self image t g
  = Ok {| name := "No se detectó rostro";
          confidence := 0;
          confidence_gap := 0;
          face_detected := false;
          face_box := None;
          authorized := false;
          top_predictions := [];
          rejection_reasons := ["no_face_detected"] |}.
Proof.
  intros Hfaces. unfold predict. by rewrite (detect_face_None _ _ Hfaces).
Qed.

End verdict.

Lemma predict_authorized_iff_sentinel_witness :
  let system := sample_system [sample_face] [0.05; 0.92; 0.03]%Q
                  ["Bob"; "Alice"; "Carol"] in
  let d := {| name := "Alice";
              confidence := 0.92;
              confidence_gap := 0.92 - 0.05;
              face_detected := true;
              face_box := Some sample_face;
              authorized := true;
              top_predictions :=
                [{| class := "Alice"; class_confidence := 0.92 |};
                 {| class := "Bob"; class_confidence := 0.05 |};
                 {| class := "Carol"; class_confidence := 0.03 |}];
              rejection_reasons := ["authorized"] |} in
  predict (H := sample_cv2) system sample_frame 0.80 0.20 = Ok d
  ∧ (authorized d = true ↔ rejection_reasons d = ["authorized"])
  ∧ (rejection_reasons d ≠ ["authorized"] →
     authorized d = false
     ∧ (length (rejection_reasons d) = 1 ∨ length (rejection_reasons d) = 2)%nat)
  ∧ rejection_reasons d ≠ [].
Proof.
  intros system d.
  assert (predict (H := sample_cv2) system sample_frame 0.80 0.20 = Ok d) as Hd
    by (vm_compute; reflexivity).
  split; [exact Hd|].
  exact (predict_authorized_iff_sentinel (H := sample_cv2) system sample_frame
           0.80 0.20 d Hd).
Defined.

Lemma predict_no_face_witness :
  face_cascade (sample_system [] [1%Q] ["Alice"])
    (cv2_BGR2GRAY (OpenCV := sample_cv2) sample_frame) 1.1 5 (60, 60) = []
  ∧ predict (H := sample_cv2) (sample_system [] [1%Q] ["Alice"]) sample_frame
      0.80 0.20
    = Ok {| name := "No se detectó rostro";
            confidence := 0;
            confidence_gap := 0;
            face_detected := false;
            face_box := None;
            authorized := false;
            top_predictions := [];
            rejection_reasons := ["no_face_detected"] |}.
Proof.
  split; [reflexivity|].
  apply (predict_no_face (H := sample_cv2)). reflexivity.
Defined.

(** ** The ranking of the top predictions *)

Lemma rmapM_Forall2 {A B} (f : A → Result B) l bs :
  rmapM f l = Ok bs → Forall2 (λ a b, f a = Ok b) l bs.
Proof.
  revert bs. induction l as [|a l IH]; simpl; intros bs.
  - intros [= <-]. constructor.
  - intros (b & Hb & (bs' & Hbs & [= <-])%rbind_Ok)%rbind_Ok.
    constructor; [done|]. by apply IH.
Qed.

Lemma entry_Ok self p idx e :
  entry self p idx = Ok e ↔
  label_encoder self !! idx = Some (class e) ∧ class_confidence e = np.at_ p idx.
Proof.
  unfold entry. rewrite rbind_Ok. setoid_rewrite getitem_Ok. split.
  - by intros (c & Hc & [= <-]).
  - intros [Hc He]. exists (class e). split; [done|]. destruct e; simpl in *.
    by subst.
Qed.


Section ranking.
Context `{OpenCV}.


End ranking.



(** ** When predict returns *)

Lemma decide_identity_Ok_iff self box p t g :
  (∃ d, decide_identity self box p t g = Ok d)
  ↔ ∃ tops i0, rmapM (entry self p) (top_3_indices p) = Ok tops
               ∧ top_3_indices p !! 0%nat = Some i0.
Proof.
  split.
  - intros [d (i0 & Hi0 & _ & _ & _ & _ & Htops & _)%decide_identity_inv].
    by exists (top_predictions d), i0.
  - intros (tops & i0 & Htops & Hi0). unfold decide_identity.
    rewrite Htops. simpl.
    assert (∃ c, getitem (label_encoder self) i0 = Ok c) as [c Hc].
    { apply rmapM_Forall2 in Htops.
      destruct (Forall2_lookup_l _ _ _ _ _ Htops Hi0) as (e & _ & He).
      apply entry_Ok in He as [He _]. exists (class e). by apply getitem_Ok. }
    apply getitem_Ok in Hi0. rewrite Hi0. simpl.
    destruct (decide (1 < length (top_3_indices p))%nat) as [Hlen|Hlen]; simpl.
    + destruct (getitem_lt (top_3_indices p) 1 Hlen) as [i1 ->]. simpl.
      destruct (Qltb (np.at_ p i0) t), (Qltb _ g); simpl; rewrite ?Hc; simpl;
        by eexists.
    + destruct (Qltb (np.at_ p i0) t), (Qltb _ g); simpl; rewrite ?Hc; simpl;
        by eexists.
Qed.

Lemma decide_identity_is_ok self box p t g t' g' :
  is_ok (decide_identity self box p t g) = is_ok (decide_identity self box p t' g').
Proof.
  destruct (decide_identity self box p t g) as [d|e] eqn:E;
    destruct (decide_identity self box p t' g') as [d'|e'] eqn:E'; simpl; try done.
  - assert (∃ d, decide_identity self box p t' g' = Ok d) as [? ?]; [|congruence].
    apply decide_identity_Ok_iff. apply (decide_identity_Ok_iff self box p t g).
    by exists d.
  - assert (∃ d, decide_identity self box p t g = Ok d) as [? ?]; [|congruence].
    apply decide_identity_Ok_iff. apply (decide_identity_Ok_iff self box p t' g').
    by exists d'.
Qed.

Section returns.
Context `{OpenCV}.


(** C5, as the code has it. Neither the constructor nor [predict] checks
    the threshold or the minimum gap: whether [predict] returns a decision
    or raises does not depend on them. *)
Theorem predict_accepts_any_threshold self image t g t' g' :
  is_ok (predict self image t g) = is_ok (predict self image t' g').
Proof.
  unfold predict. destruct (detect_face self image) as [[[face box]|]|e];
    simpl; try done.
  destruct (classify self face) as [p|e]; simpl; [|done].
  apply decide_identity_is_ok.
Qed.




End returns.

(** C5, as stated, on a threshold of 2 and a gap of -1: the system is
    constructed and [predict] answers with a decision. *)
Lemma out_of_range_threshold_accepted :
  let system := sample_system [sample_face] [0.05; 0.92; 0.03]%Q
                  ["Bob"; "Alice"; "Carol"] in
  __init__ (sample_loaders system) MODEL_PATH LABEL_ENCODER_PATH = Ok system
  ∧ predict (H := sample_cv2) system sample_frame 2 (-1)
    = Ok {| name := "Desconocido";
            confidence := 0.92;
            confidence_gap := 0.92 - 0.05;
            face_detected := true;
            face_box := Some sample_face;
            authorized := false;
            top_predictions :=
              [{| class := "Alice"; class_confidence := 0.92 |};
               {| class := "Bob"; class_confidence := 0.05 |};
               {| class := "Carol"; class_confidence := 0.03 |}];
            rejection_reasons := ["confidence_too_low_92.00%<200%"] |}.
Proof. split; vm_compute; reflexivity. Qed.




(** A label equal to "Desconocido" can be the name of an authorized
    decision; the test on the name then keeps the session closed. *)
Example label_named_like_the_sentinel :
  let system := sample_system [sample_face] [1%Q] ["Desconocido"] in
  ∃ d, predict (H := sample_cv2) system sample_frame 0.80 0.20 = Ok d
       ∧ authorized d = true ∧ name d = "Desconocido"
       ∧ grants_session d = false.
Proof. eexists. split; [vm_compute; reflexivity|]. by vm_compute. Qed.

(** ** The two flows *)

Section flows.
Context `{OpenCV}.

Lemma verify_face_stream_frame env system image st :
  face_system st = Some system →
  (verify_face_stream env (BodyFrame image) st).1
  = match predict system image 0.75 0.20 with
    | Ok result => Verification (name result) (confidence result)
                     (authorized result) (face_detected result)
    | Raise e => ServerError e
    end.
Proof.
  intros Hsys. unfold verify_face_stream, get_face_system, verify_decision.
  rewrite Hsys. simpl. unfold default_min_confidence_gap.
  by destruct (predict system image 0.75 0.20).
Qed.

Lemma recognize_face_frame env now system image st :
  face_system st = Some system →
  (recognize_face env now (BodyFrame image) st).1
  = match predict system image 0.80 0.20 with
    | Ok result =>
        Recognition (grants_session result) (name result) (confidence result)
          (confidence_gap result) (top_predictions result)
          (rejection_reasons result)
          (if grants_session result
           then "¡Bienvenido/a " +:+ name result +:+ "!"
           else "Acceso denegado. Persona no reconocida.")
    | Raise e => ServerError e
    end.
Proof.
  intros Hsys. unfold recognize_face, get_face_system. rewrite Hsys. simpl.
  destruct (predict system image 0.80 0.20) as [d|e]; [|done].
  by destruct (grants_session d).
Qed.


End flows.



(** ** The crop *)

Lemma slice_bound_range n i : 0 ≤ n → 0 ≤ slice_bound n i ≤ n.
Proof. unfold slice_bound. destruct (decide (i < 0)); lia. Qed.

Lemma slice_bound_id n i : 0 ≤ i ≤ n → slice_bound n i = i.
Proof. unfold slice_bound. destruct (decide (i < 0)); lia. Qed.

Lemma elem_of_slice_indices n start stop r :
  0 ≤ n → r ∈ slice_indices n start stop → 0 ≤ r < n.
Proof.
  intros Hn. unfold slice_indices. rewrite elem_of_seqZ.
  pose proof (slice_bound_range n start Hn).
  pose proof (slice_bound_range n stop Hn). lia.
Qed.

Lemma shape0_BGR2RGB image : shape0 (BGR2RGB image) = shape0 image.
Proof. unfold shape0, BGR2RGB. by rewrite length_map. Qed.

Lemma shape1_BGR2RGB image : shape1 (BGR2RGB image) = shape1 image.
Proof. destruct image as [|row image]; simpl; [done|]. by rewrite length_map. Qed.

Lemma shape0_nonneg {A} (img : list (list A)) : 0 ≤ shape0 img.
Proof. unfold shape0. lia. Qed.

Lemma shape1_nonneg {A} (img : list (list A)) : 0 ≤ shape1 img.
Proof. destruct img; simpl; lia. Qed.

(** The bounds handed to the slice are inside the frame themselves when the
    box starts inside it and has no negative size. *)
Lemma crop_bounds_in_frame rows y h :
  0 ≤ y ≤ rows → 0 ≤ h →
  0 ≤ crop_top y ≤ crop_bottom rows y h ∧ crop_bottom rows y h ≤ rows.
Proof. unfold crop_top, crop_bottom, padding. lia. Qed.

(** What [l[start:stop]] holds at position [k] is what [l] holds at the
    [k]-th index read. *)
Lemma slice_lookup {A} (l : list A) start stop k x :
  slice l start stop !! k = Some x →
  ∃ r, slice_indices (Z.of_nat (length l)) start stop !! k = Some r
       ∧ l !! Z.to_nat r = Some x.
Proof.
  unfold slice, slice_indices.
  set (n := Z.of_nat (length l)). set (s := slice_bound n start).
  set (e := slice_bound n stop).
  intros Hk. apply lookup_take_Some in Hk as [Hk Hlt].
  rewrite lookup_drop in Hk.
  pose proof (slice_bound_range n start ltac:(lia)). fold s in H.
  exists (s + Z.of_nat k). split.
  - apply lookup_seqZ. lia.
  - rewrite <- Hk. f_equal. lia.
Qed.

(** For a box inside the frame the coordinates read are those of the box
    widened by the padding and cut at the edges of the frame. *)
Lemma crop_coords_spec image x y w h r c :
  0 ≤ x → 0 ≤ y → 0 ≤ w → 0 ≤ h →
  x + w ≤ shape1 image → y + h ≤ shape0 image →
  (r, c) ∈ crop_coords image (x, y, w, h) ↔
  Z.max 0 (y - 20) ≤ r < Z.min (shape0 image) (y + h + 20)
  ∧ Z.max 0 (x - 20) ≤ c < Z.min (shape1 image) (x + w + 20).
Proof.
  intros Hx Hy Hw Hh Hxw Hyh. unfold crop_coords.
  rewrite shape0_BGR2RGB, shape1_BGR2RGB.
  assert (∀ n lo hi k, 0 ≤ lo ≤ hi → hi ≤ n →
            k ∈ slice_indices n lo hi ↔ lo ≤ k < hi) as Hin.
  { intros n lo hi k Hlo Hhi. unfold slice_indices.
    rewrite !slice_bound_id by lia. rewrite elem_of_seqZ. lia. }
  rewrite list_elem_of_bind. setoid_rewrite list_elem_of_bind.
  setoid_rewrite list_elem_of_singleton.
  unfold crop_top, crop_bottom, crop_left, crop_right, padding. split.
  - intros (r' & (c' & [= -> ->] & Hc) & Hr).
    apply Hin in Hr; [|lia..]. apply Hin in Hc; [|lia..]. lia.
  - intros [Hr Hc]. exists r. split; [exists c; split; [done|]|].
    + apply Hin; lia.
    + apply Hin; lia.
Qed.

(** C7. Every pixel coordinate read by the padded crop of a box lies inside
    the frame, whatever the box. *)
Theorem crop_within_frame image face r c :
  (r, c) ∈ crop_coords image face →
  0 ≤ r < shape0 image ∧ 0 ≤ c < shape1 image.
Proof.
  destruct face as [[[x y] w] h]. unfold crop_coords.
  rewrite shape0_BGR2RGB, shape1_BGR2RGB.
  intros (r' & Hrc & Hr)%list_elem_of_bind.
  apply list_elem_of_bind in Hrc as (c' & Hrc & Hc).
  apply list_elem_of_singleton in Hrc as [= -> ->].
  split.
  - eapply elem_of_slice_indices; [apply shape0_nonneg|exact Hr].
  - eapply elem_of_slice_indices; [apply shape1_nonneg|exact Hc].
Qed.

(** The pixels of the crop are the pixels of the frame at the coordinates
    of [crop_coords]. *)
Lemma face_crop_reads image face i j px :
  Forall (λ row, Z.of_nat (length row) = shape1 image) image →
  face_crop image face !! i = Some px.1 → px.1 !! j = Some px.2 →
  ∃ r c row, (r, c) ∈ crop_coords image face
             ∧ BGR2RGB image !! Z.to_nat r = Some row
             ∧ row !! Z.to_nat c = Some px.2.
Proof.
  destruct face as [[[x y] w] h]. destruct px as [crow pixel]. simpl.
  intros Hrect Hi Hj. unfold face_crop, slice2 in Hi.
  apply list_lookup_fmap_Some in Hi as (row & -> & Hrow).
  apply slice_lookup in Hrow as (r & Hr & Hrow).
  apply slice_lookup in Hj as (c & Hc & Hpx).
  exists r, c, row. split_and!; [|done..].
  unfold crop_coords. apply list_elem_of_bind. exists r. split.
  - apply list_elem_of_bind. exists c. split; [by apply list_elem_of_singleton|].
    apply list_elem_of_lookup_2 in Hrow as Hin.
    unfold BGR2RGB in Hin. apply list_elem_of_fmap in Hin as (row0 & -> & Hin0).
    rewrite Forall_forall in Hrect. specialize (Hrect _ Hin0).
    rewrite length_map, shape1_BGR2RGB in Hc. rewrite shape1_BGR2RGB.
    change (Z.of_nat (length row0)) with (Z.of_nat (length (row0 : list Pixel))) in Hc.
    rewrite Hrect in Hc. by eapply list_elem_of_lookup_2.
  - unfold shape0. by eapply list_elem_of_lookup_2.
Qed.

Lemma crop_within_frame_witness :
  (79, 99) ∈ crop_coords sample_frame sample_face
  ∧ 0 ≤ 79 < shape0 sample_frame ∧ 0 ≤ 99 < shape1 sample_frame.
Proof.
  assert ((79, 99) ∈ crop_coords sample_frame sample_face) as Hin.
  { apply list_elem_of_bind. exists 79. split.
    - apply list_elem_of_bind. exists 99.
      split; [by apply list_elem_of_singleton|].
      apply elem_of_seqZ. vm_compute. by split_and!.
    - apply elem_of_seqZ. vm_compute. by split_and!. }
  split; [exact Hin|].
  exact (crop_within_frame sample_frame sample_face 79 99 Hin).
Defined.

(** ** The renderer *)

Section renderer.
Context `{OpenCV}.

Lemma copy_fresh image σ : σ !! (copy image σ).1 = None.
Proof. simpl. apply not_elem_of_dom, is_fresh. Qed.

Lemma draw_on_extends (σ0 σ : Store) r f :
  σ0 !! r = None → σ0 ⊆ σ → σ0 ⊆ draw_on r f σ.
Proof. intros. by apply insert_subseteq_r. Qed.

Lemma draw_on_allocated (σ : Store) r f : is_Some (draw_on r f σ !! r).
Proof. unfold draw_on. rewrite lookup_insert_eq. by eexists. Qed.

(** C8. [draw_result] leaves every buffer of the store as it was, the
    input frame among them; when it returns, the frame it returns is a
    buffer that did not exist before the call. It returns on the no-face
    path and whenever a box comes with the detected face. *)
Theorem draw_result_leaves_frame image result (σ : Store) buf :
  σ !! image = Some buf →
  (draw_result image result σ).2 !! image = Some buf
  ∧ σ ⊆ (draw_result image result σ).2
  ∧ match (draw_result image result σ).1 with
    | Ok img_copy =>
        img_copy ≠ image
        ∧ σ !! img_copy = None
        ∧ is_Some ((draw_result image result σ).2 !! img_copy)
    | Raise _ => face_detected result = true ∧ face_box result = None
    end.
Proof.
  intros Himage.
  pose proof (copy_fresh image σ) as Hfresh.
  assert (σ ⊆ (copy image σ).2) as Hcopy by by apply insert_subseteq.
  assert ((copy image σ).1 ≠ image) as Hne by congruence.
  assert (σ ⊆ (draw_result image result σ).2
          ∧ match (draw_result image result σ).1 with
            | Ok img_copy =>
                img_copy ≠ image
                ∧ σ !! img_copy = None
                ∧ is_Some ((draw_result image result σ).2 !! img_copy)
            | Raise _ => face_detected result = true ∧ face_box result = None
            end) as [Hsub Hret].
  { unfold draw_result.
    destruct (copy image σ) as [img_copy σ1] eqn:Ecopy. simpl in *.
    destruct (face_detected result); simpl.
    - destruct (face_box result) as [[[[x y] w] h]|]; simpl; [|done].
      split; [by repeat apply draw_on_extends|].
      split_and!; [done..|]. apply draw_on_allocated.
    - split; [by apply draw_on_extends|].
      split_and!; [done..|]. apply draw_on_allocated. }
  split_and!; [|done..]. by eapply lookup_weaken.
Qed.

End renderer.

Lemma draw_result_leaves_frame_witness :
  let σ : Store := {[ 1%positive := sample_frame ]} in
  let result := {| name := "Alice";
                   confidence := 0.92;
                   confidence_gap := 0.87;
                   face_detected := true;
                   face_box := Some sample_face;
                   authorized := true;
                   top_predictions := [];
                   rejection_reasons := ["authorized"] |} in
  let out := draw_result (H := sample_cv2) 1%positive result σ in
  σ !! 1%positive = Some sample_frame
  ∧ out.2 !! 1%positive = Some sample_frame
  ∧ out.1 = Ok 2%positive
  ∧ out.2 !! 2%positive ≠ Some sample_frame.
Proof.
  intros σ result out.
  assert (σ !! 1%positive = Some sample_frame) as Hframe by reflexivity.
  split; [exact Hframe|]. split.
  - exact (proj1 (draw_result_leaves_frame (H := sample_cv2) 1%positive result σ
                    sample_frame Hframe)).
  - split; [vm_compute; reflexivity|]. vm_compute. discriminate.
Defined.

(** ** Normalised probability vectors *)

Lemma at_le_Qsum v a : Forall (λ q, 0 <= q)%Q v → (np.at_ v a <= Qsum v)%Q.
Proof.
  intros Hv. revert a. induction Hv as [|x v Hx Hv IH]; intros a.
  - destruct a; unfold np.at_; simpl; lra.
  - destruct a as [|a]; unfold np.at_ in *; simpl.
    + specialize (IH 0%nat). assert (0 <= Qsum v)%Q.
      { clear IH. induction Hv; simpl; [lra|]. simpl in *. lra. }
      fold (Qsum v). lra.
    + specialize (IH a). fold (Qsum v). lra.
Qed.

Lemma at_pair_le_Qsum v a b :
  Forall (λ q, 0 <= q)%Q v → a ≠ b → (np.at_ v a + np.at_ v b <= Qsum v)%Q.
Proof.
  intros Hv. revert a b. induction Hv as [|x v Hx Hv IH]; intros a b Hab.
  - destruct a, b; unfold np.at_; simpl; lra.
  - pose proof (at_le_Qsum v) as Hone.
    destruct a as [|a], b as [|b]; [done|..]; unfold np.at_ in *; simpl;
      fold (Qsum v).
    + specialize (Hone b Hv). lra.
    + specialize (Hone a Hv). lra.
    + specialize (IH a b ltac:(congruence)). lra.
Qed.

(** When the probabilities are non-negative and sum to at most 1, and the
    minimum gap is at most twice the threshold minus 1 (as with 0.75 or 0.80
    against 0.20), a confidence that reaches the threshold comes with a gap
    that reaches the minimum: the gap check does not change the verdict. *)
Lemma normalised_gap_follows self box p t g d :
  Forall (λ q, 0 <= q)%Q p → (Qsum p <= 1)%Q → (g <= 2 * t - 1)%Q →
  decide_identity self box p t g = Ok d →
  (t <= confidence d)%Q → (g <= confidence_gap d)%Q.
Proof.
  intros Hpos Hsum Hg (i0 & Hi0 & -> & -> & _)%decide_identity_inv Ht.
  pose proof (at_le_Qsum p i0 Hpos) as Hone.
  destruct (top_3_indices p !! 1%nat) as [i1|] eqn:Hi1; [|lra].
  assert (i0 ≠ i1) as Hne.
  { pose proof (top_3_indices_NoDup p) as Hnd. rewrite NoDup_alt in Hnd.
    intros ->. by specialize (Hnd 0%nat 1%nat i1 Hi0 Hi1). }
  pose proof (at_pair_le_Qsum p i0 i1 Hpos Hne). lra.
Qed.

(** X9. Every decision returned by [predict] can be drawn: [draw_result]
    does not raise on it. *)
Lemma draw_result_of_predict `{OpenCV} self frame t g d image (σ : Store) :
  predict self frame t g = Ok d → is_ok (draw_result image d σ).1 = true.
Proof.
  intros [[_ ->]|(face & box & p & _ & _ & Hd)]%predict_inv; [done|].
  apply decide_identity_inv in Hd as (_ & _ & _ & _ & Hface & Hbox & _).
  unfold draw_result. simpl. rewrite Hface, Hbox. simpl.
  by destruct box as [[[x y] w] h].
Qed.

(** * Further properties of the pipeline *)

(** ** The best prediction *)

Lemma top_3_indices_head_last v :
  top_3_indices v !! 0%nat = last (np.argsort v).
Proof.
  unfold top_3_indices, last_n. rewrite <- head_lookup, head_reverse.
  rewrite !last_lookup, lookup_drop, length_drop. f_equal.
  destruct (length (np.argsort v)) as [|n]; simpl; lia.
Qed.

(** The first of the top three indices holds a largest value of the vector. *)
Lemma top_index_max v i0 j :
  top_3_indices v !! 0%nat = Some i0 → (j < length v)%nat →
  (np.at_ v j <= np.at_ v i0)%Q.
Proof.
  rewrite top_3_indices_head_last. intros [s Hs]%last_Some Hj.
  pose proof (argsort_sorted v) as Hsorted. rewrite Hs in Hsorted.
  apply elem_of_argsort in Hj. rewrite Hs in Hj.
  apply elem_of_app in Hj as [Hj|Hj%list_elem_of_singleton].
  - assert (ascending v j i0) as [Hlt|[Heq _]].
    { eapply StronglySorted_app_1_elem_of; [exact Hsorted|done|].
      by apply list_elem_of_singleton. }
    + by apply Qlt_le_weak.
    + rewrite Heq. apply Qle_refl.
  - subst. apply Qle_refl.
Qed.

Lemma at_lookup v i : (i < length v)%nat → v !! i = Some (np.at_ v i).
Proof.
  intros Hi. unfold np.at_.
  by destruct (lookup_lt_is_Some_2 v i Hi) as [q ->].
Qed.

Section best.
Context `{OpenCV}.

(** X1. The confidence of a decision with a face is a value of the
    classifier's vector, and no value of the vector is larger. *)
Theorem predict_confidence_is_maximum self image t g d :
  predict self image t g = Ok d → face_detected d = true →
  ∃ face box p,
    detect_face self image = Ok (Some (face, box))
    ∧ classify self face = Ok p
    ∧ confidence d ∈ p
    ∧ Forall (λ q, q <= confidence d)%Q p.
Proof.
  intros [[_ ->]|(face & box & p & Hdet & Hp & Hd)]%predict_inv Hface; [done|].
  exists face, box, p. split_and!; [done..| |];
    apply decide_identity_inv in Hd as (i0 & Hi0 & -> & _).
  - eapply list_elem_of_lookup_2, at_lookup, top_3_indices_bound.
    by eapply list_elem_of_lookup_2.
  - apply Forall_forall. intros q [j Hj]%list_elem_of_lookup_1.
    pose proof (lookup_lt_Some _ _ _ Hj) as Hlt.
    pose proof (at_lookup p j Hlt) as Hat.
    assert (q = np.at_ p j) as -> by congruence.
    by apply top_index_max.
Qed.

(** X2. When the classifier's values are not negative, the gap of a decision
    lies between 0 and its confidence. *)
Theorem predict_gap_range self image t g face box p d :
  detect_face self image = Ok (Some (face, box)) →
  classify self face = Ok p →
  Forall (λ q, 0 <= q)%Q p →
  predict self image t g = Ok d →
  (0 <= confidence_gap d)%Q ∧ (confidence_gap d <= confidence d)%Q.
Proof.
  intros Hdet Hp Hpos [[Hnone _]|(face' & box' & p' & Hdet' & Hp' & Hd)]%predict_inv;
    [congruence|].
  assert (p' = p) as -> by congruence.
  apply decide_identity_inv in Hd as (i0 & Hi0 & -> & -> & _).
  assert (∀ i, i ∈ top_3_indices p → 0 <= np.at_ p i)%Q as Hnn.
  { intros i Hi%top_3_indices_bound. rewrite Forall_forall in Hpos.
    apply Hpos. by eapply list_elem_of_lookup_2, at_lookup. }
  pose proof (Hnn i0 ltac:(by eapply list_elem_of_lookup_2)) as H0.
  destruct (top_3_indices p !! 1%nat) as [i1|] eqn:Hi1; [|lra].
  pose proof (Hnn i1 ltac:(by eapply list_elem_of_lookup_2)) as H1.
  assert (np.at_ p i1 <= np.at_ p i0)%Q; [|lra].
  apply top_index_max; [done|]. apply top_3_indices_bound.
  by eapply list_elem_of_lookup_2.
Qed.

(** X3. The first entry of [top_predictions] of a decision with a face
    carries the confidence of the decision, and its label is the name of
    the decision when the decision is authorized. *)
Theorem top_prediction_heads_decision self image t g d :
  predict self image t g = Ok d → face_detected d = true →
  ∃ e, top_predictions d !! 0%nat = Some e
       ∧ class_confidence e = confidence d
       ∧ (authorized d = true → class e = name d).
Proof.
  intros [[_ ->]|(face & box & p & _ & _ & Hd)]%predict_inv Hface; [done|].
  apply decide_identity_inv in Hd as (i0 & Hi0 & -> & _ & _ & _ & Htops & Hr).
  apply rmapM_Forall2 in Htops.
  destruct (Forall2_lookup_l _ _ _ _ _ Htops Hi0) as (e & He & [Hc Hq]%entry_Ok).
  exists e. split_and!; [done..|]. intros Hauth.
  destruct Hr as [(_ & _ & _ & Hname)|(_ & Hno & _)]; congruence.
Qed.

(** X4. A decision with a face whose confidence is below the threshold is
    named "Desconocido" and is not authorized; its reasons are the
    confidence marker followed by the gap marker when the gap is below the
    minimum too, and the confidence marker alone otherwise. *)
Theorem predict_low_confidence_reasons self image t g d :
  predict self image t g = Ok d → face_detected d = true →
  (confidence d < t)%Q →
  authorized d = false ∧ name d = "Desconocido"
  ∧ ((confidence_gap d < g)%Q →
     rejection_reasons d = [confidence_too_low (confidence d) t;
                            gap_too_small (confidence_gap d) g])
  ∧ ((g <= confidence_gap d)%Q →
     rejection_reasons d = [confidence_too_low (confidence d) t]).
Proof.
  intros [[_ ->]|(face & box & p & _ & _ & Hd)]%predict_inv Hface Hlow; [done|].
  apply decide_identity_inv in Hd as (i0 & _ & _ & _ & _ & _ & _ & Hr).
  unfold collected in Hr. apply Qltb_lt in Hlow. rewrite Hlow in Hr.
  destruct Hr as [(Hr & _)|(_ & -> & -> & ->)].
  { by destruct (Qltb (confidence_gap d) g). }
  split_and!; [done..| |].
  - intros Hgap%Qltb_lt. by rewrite Hgap.
  - intros Hgap%Qltb_ge. by rewrite Hgap.
Qed.

End best.

(** ** Thresholds *)

(** The decision in closed form, once the label lookups are known to
    succeed. *)
Lemma decide_identity_eq self box p t g tops i0 c :
  rmapM (entry self p) (top_3_indices p) = Ok tops →
  top_3_indices p !! 0%nat = Some i0 →
  label_encoder self !! i0 = Some c →
  decide_identity self box p t g
  = let conf := np.at_ p i0 in
    let gap := match top_3_indices p !! 1%nat with
               | Some i1 => (conf - np.at_ p i1)%Q
               | None => conf
               end in
    let r := collected conf gap t g in
    Ok {| name := if bool_decide (r = []) then c else "Desconocido";
          confidence := conf;
          confidence_gap := gap;
          face_detected := true;
          face_box := Some box;
          authorized := bool_decide (r = []);
          top_predictions := tops;
          rejection_reasons := if bool_decide (r = []) then ["authorized"] else r |}.
Proof.
  intros Htops Hi0 Hc. unfold decide_identity, collected.
  rewrite Htops. simpl. apply getitem_Ok in Hi0 as Hg0. rewrite Hg0. simpl.
  apply getitem_Ok in Hc as Hgc.
  destruct (top_3_indices p !! 1%nat) as [i1|] eqn:Hi1.
  - rewrite decide_True by (by eapply lookup_lt_Some).
    apply getitem_Ok in Hi1 as Hg1. rewrite Hg1. simpl.
    destruct (Qltb (np.at_ p i0) t), (Qltb _ g); simpl; rewrite ?Hgc; done.
  - rewrite decide_False by (apply lookup_ge_None in Hi1; lia). simpl.
    destruct (Qltb (np.at_ p i0) t), (Qltb _ g); simpl; rewrite ?Hgc; done.
Qed.

Lemma decide_identity_Ok_lookups self box p t g d :
  decide_identity self box p t g = Ok d →
  ∃ i0 c, rmapM (entry self p) (top_3_indices p) = Ok (top_predictions d)
          ∧ top_3_indices p !! 0%nat = Some i0
          ∧ label_encoder self !! i0 = Some c.
Proof.
  intros (i0 & Hi0 & _ & _ & _ & _ & Htops & _)%decide_identity_inv.
  pose proof (rmapM_Forall2 _ _ _ Htops) as Hent.
  destruct (Forall2_lookup_l _ _ _ _ _ Hent Hi0) as (e & _ & [He _]%entry_Ok).
  by exists i0, (class e).
Qed.

Lemma collected_nil c gap t g :
  collected c gap t g = [] ↔ (t <= c)%Q ∧ (g <= gap)%Q.
Proof.
  unfold collected. rewrite <- !Qltb_ge.
  destruct (Qltb c t), (Qltb gap g); simpl; split; try done; by intros [? ?].
Qed.

Lemma decide_identity_authorized_lower self box p t g t' g' d :
  decide_identity self box p t g = Ok d → authorized d = true →
  (t' <= t)%Q → (g' <= g)%Q →
  decide_identity self box p t' g' = Ok d.
Proof.
  intros Hd Hauth Ht Hg.
  destruct (decide_identity_Ok_lookups _ _ _ _ _ _ Hd) as (i0 & c & Htops & Hi0 & Hc).
  rewrite (decide_identity_eq self box p t g _ i0 c Htops Hi0 Hc) in Hd.
  rewrite (decide_identity_eq self box p t' g' _ i0 c Htops Hi0 Hc).
  destruct d as [nm cf gp fd fb au tp rr]. cbv zeta in *. simpl in *.
  injection Hd as En Ec Eg Efd Efb Eau Err.
  rewrite Hauth in Eau. apply bool_decide_eq_true in Eau as Hnil.
  subst.
  pose proof Hnil as [Hc1 Hc2]%collected_nil.
  assert (collected (np.at_ p i0)
            match top_3_indices p !! 1%nat with
            | Some i1 => (np.at_ p i0 - np.at_ p i1)%Q
            | None => np.at_ p i0
            end t' g' = []) as Hnil'.
  { apply collected_nil. split; [by apply Qle_trans with t|by apply Qle_trans with g]. }
  simpl. by rewrite Hnil, Hnil'.
Qed.

Section thresholds.
Context `{OpenCV}.

(** X5. A decision authorized at a threshold and a minimum gap is returned
    unchanged at every lower threshold and lower minimum gap. *)
Theorem predict_authorized_at_lower_thresholds self image t g t' g' d :
  predict self image t g = Ok d → authorized d = true →
  (t' <= t)%Q → (g' <= g)%Q →
  predict self image t' g' = Ok d.
Proof.
  intros Hd Hauth Ht Hg.
  apply predict_inv in Hd as [[_ ->]|(face & box & p & Hdet & Hp & Hd)]; [done|].
  unfold predict. rewrite Hdet. simpl. rewrite Hp. simpl.
  by apply (decide_identity_authorized_lower self box p t g).
Qed.

(** X6. The threshold and the minimum gap decide the name, the verdict and
    the reasons only: at any other pair of them [predict] returns a
    decision with the same confidence, gap, face flag, box and top
    predictions. *)
Theorem predict_measures_ignore_thresholds self image t g t' g' d :
  predict self image t g = Ok d →
  ∃ d', predict self image t' g' = Ok d'
        ∧ confidence d' = confidence d
        ∧ confidence_gap d' = confidence_gap d
        ∧ face_detected d' = face_detected d
        ∧ face_box d' = face_box d
        ∧ top_predictions d' = top_predictions d.
Proof.
  intros [[Hdet ->]|(face & box & p & Hdet & Hp & Hd)]%predict_inv;
    unfold predict; rewrite Hdet; simpl.
  { by exists no_face_decision. }
  rewrite Hp. simpl.
  destruct (decide_identity_Ok_lookups _ _ _ _ _ _ Hd) as (i0 & c & Htops & Hi0 & Hc).
  rewrite (decide_identity_eq self box p t g _ i0 c Htops Hi0 Hc) in Hd.
  rewrite (decide_identity_eq self box p t' g' _ i0 c Htops Hi0 Hc).
  destruct d as [nm cf gp fd fb au tp rr]. cbv zeta in *. simpl in *.
  injection Hd; intros; subst. eexists. split; [done|]. by simpl.
Qed.

(** X7. A frame that opens a session in the login view is authorized under
    the same name by the verification view. *)
Theorem login_frame_passes_verification env now system image st nm c gp tops rs msg :
  face_system st = Some system →
  (recognize_face env now (BodyFrame image) st).1
    = Recognition true nm c gp tops rs msg →
  (verify_face_stream env (BodyFrame image) st).1 = Verification nm c true true.
Proof.
  intros Hsys. rewrite (recognize_face_frame env now system image st Hsys).
  rewrite (verify_face_stream_frame env system image st Hsys).
  destruct (predict system image 0.80 0.20) as [d|e] eqn:Hd; [|done].
  intros [= Hgrant <- <- _ _ _ _].
  unfold grants_session in Hgrant. apply andb_true_iff in Hgrant as [Hauth _].
  apply predict_inv in Hd as [[_ ->]|(face & box & p & Hdet & Hp & Hd)]; [done|].
  unfold predict. rewrite Hdet. simpl. rewrite Hp. simpl.
  rewrite (decide_identity_authorized_lower system box p 0.80 0.20 0.75 0.20 d
             Hd Hauth) by (unfold Qle; simpl; lia).
  rewrite Hauth. f_equal.
  by apply decide_identity_inv in Hd as (_ & _ & _ & _ & ? & _).
Qed.

End thresholds.

(** ** Exceptions of predict *)






Section exceptions.
Context `{OpenCV}.


End exceptions.

(** ** The detected face *)

Lemma max_by_split {A} (key : A → Z) (best : A) (rest : list A) :
  ∃ l1 l2, best :: rest = l1 ++ max_by key best rest :: l2
           ∧ Forall (λ a, key a < key (max_by key best rest)) l1
           ∧ Forall (λ a, key a ≤ key (max_by key best rest)) l2.
Proof.
  revert best. induction rest as [|a rest IH]; intros best; simpl.
  - exists [], []. by repeat constructor.
  - destruct (IH (if decide (key best < key a) then a else best))
      as (l1 & l2 & Hsplit & Hl1 & Hl2).
    remember (max_by key (if decide (key best < key a) then a else best) rest)
      as m eqn:Hm. clear Hm IH.
    destruct (decide (key best < key a)) as [Hlt|Hge].
    + exists (best :: l1), l2. split_and!; [by rewrite Hsplit| |done].
      constructor; [|done].
      assert (key a ≤ key m); [|lia].
      destruct l1 as [|a' l1]; simpl in Hsplit; injection Hsplit as Ea Er.
      * subst. lia.
      * subst. apply Forall_cons in Hl1 as [? _]. lia.
    + destruct l1 as [|b l1]; simpl in Hsplit; injection Hsplit as Eb Er.
      * subst. exists [], (a :: l2). split_and!; [done|constructor|].
        constructor; [lia|done].
      * subst. exists (b :: a :: l1), l2. apply Forall_cons in Hl1 as [Hb Hl1].
        split_and!; [done| |done]. repeat constructor; [lia|lia|done].
Qed.

Lemma length_slice {A} (l : list A) a b :
  0 ≤ a ≤ b → b ≤ Z.of_nat (length l) →
  Z.of_nat (length (slice l a b)) = b - a.
Proof.
  intros Ha Hb. unfold slice. rewrite !slice_bound_id by lia.
  rewrite length_take, length_drop. lia.
Qed.

Lemma elem_of_slice {A} (l : list A) a b x : x ∈ slice l a b → x ∈ l.
Proof.
  unfold slice. intros Hx.
  eapply elem_of_sublist; [exact Hx|].
  etrans; [apply sublist_take|apply sublist_drop].
Qed.

Lemma rectangular_BGR2RGB image row :
  rectangular image → row ∈ BGR2RGB image →
  Z.of_nat (length row) = shape1 image.
Proof.
  unfold rectangular, BGR2RGB. rewrite Forall_forall.
  intros Hrect (row0 & -> & Hin)%list_elem_of_fmap.
  rewrite length_map. by apply Hrect.
Qed.

(** The shape of the crop of a box inside the frame. *)
Lemma face_crop_shape image x y w h :
  rectangular image → in_frame image (x, y, w, h) →
  shape0 (face_crop image (x, y, w, h))
    = Z.min (shape0 image) (y + h + 20) - Z.max 0 (y - 20)
  ∧ shape1 (face_crop image (x, y, w, h))
    = Z.min (shape1 image) (x + w + 20) - Z.max 0 (x - 20).
Proof.
  intros Hrect (Hx & Hy & Hw & Hh & Hxw & Hyh).
  unfold face_crop, slice2, crop_top, crop_bottom, crop_left, crop_right, padding.
  rewrite shape0_BGR2RGB, shape1_BGR2RGB.
  assert (Z.of_nat (length (slice (BGR2RGB image) (Z.max 0 (y - 20))
                              (Z.min (shape0 image) (y + h + 20))))
          = Z.min (shape0 image) (y + h + 20) - Z.max 0 (y - 20)) as Hrows.
  { apply length_slice; [lia|]. fold (shape0 (BGR2RGB image)).
    rewrite shape0_BGR2RGB. lia. }
  split.
  - unfold shape0 at 1. by rewrite length_fmap.
  - destruct (slice (BGR2RGB image) _ _) as [|row rows] eqn:Hslice.
    { simpl in Hrows. lia. }
    simpl. apply length_slice; [lia|].
    rewrite (rectangular_BGR2RGB image row Hrect); [lia|].
    apply (elem_of_slice _ (Z.max 0 (y - 20)) (Z.min (shape0 image) (y + h + 20))).
    rewrite Hslice. by left.
Qed.

Section detection.
Context `{OpenCV}.


(** X11. When the image is rectangular and every face found by the cascade
    lies inside it with a positive size, [detect_face] does not raise: with
    at least one face it returns the resized crop of a box [(x, y, w, h)],
    and the crop has between [h] and [h + 40] rows and between [w] and
    [w + 40] columns. *)
Theorem detect_face_in_frame self image first others :
  rectangular image →
  face_cascade self (cv2_BGR2GRAY image) 1.1 5 (60, 60) = first :: others →
  Forall (in_frame image) (first :: others) →
  ∃ x y w h,
    detect_face self image
    = Ok (Some (cv2_resize (face_crop image (x, y, w, h)) (160, 160),
                (x, y, w, h)))
    ∧ h ≤ shape0 (face_crop image (x, y, w, h)) ≤ h + 40
    ∧ w ≤ shape1 (face_crop image (x, y, w, h)) ≤ w + 40.
Proof.
  intros Hrect Hfaces Hall. unfold detect_face. rewrite Hfaces.
  destruct (max_by_split area first others) as (l1 & l2 & Hsplit & _).
  destruct (max_by area first others) as [[[x y] w] h] eqn:Hmax.
  assert (in_frame image (x, y, w, h)) as Hin.
  { rewrite Forall_forall in Hall. apply Hall. rewrite Hsplit.
    apply elem_of_app. right. by left. }
  destruct (face_crop_shape image x y w h Hrect Hin) as [H0 H1].
  destruct Hin as (Hx & Hy & Hw & Hh & Hxw & Hyh).
  exists x, y, w, h. split_and!; [|lia..].
  unfold resize. rewrite decide_False by lia. done.
Qed.

End detection.

(** X12. The crop of a box inside the frame reads every pixel of the box. *)
Theorem crop_covers_box image x y w h r c :
  in_frame image (x, y, w, h) →
  y ≤ r < y + h → x ≤ c < x + w →
  (r, c) ∈ crop_coords image (x, y, w, h).
Proof.
  intros (Hx & Hy & Hw & Hh & Hxw & Hyh) Hr Hc.
  apply crop_coords_spec; lia.
Qed.

(** ** The drawn frame *)

Lemma draw_on_insert (σ : Store) c f v :
  draw_on c f (<[c := v]> σ) = <[c := f v]> σ.
Proof.
  unfold draw_on, deref. by rewrite lookup_insert_eq, insert_insert_eq.
Qed.

Lemma deref_Some (σ : Store) (r : ref) buf :
  σ !! r = Some buf → deref σ r = buf.
Proof. unfold deref, Image. by intros ->. Qed.

Section drawing.
Context `{OpenCV}.


(** X14. On the face path [draw_result] returns a new buffer that holds the
    content of the input frame with, drawn in this order, the box (green
    when authorized, orange otherwise), a filled band of the same colour as
    wide as the box, the name and the confidence as a percentage with one
    decimal; nothing else in the store changes. The band lies above the box
    and inside the frame when the box starts below row 40, and starts at
    the bottom of the box otherwise. *)
Theorem draw_result_face (image : ref) result (σ : Store) buf x y w h :
  σ !! image = Some buf → face_detected result = true →
  face_box result = Some (x, y, w, h) →
  let color := if authorized result then green else orange in
  let text_y := if decide (40 < y) then y - 10 else y + h + 25 in
  draw_result image result σ
  = (Ok (fresh (dom σ)),
     <[fresh (dom σ) :=
         cv2_putText
           (cv2_putText
              (cv2_rectangle
                 (cv2_rectangle buf (x, y) (x + w, y + h) color 2)
                 (x, text_y - 25) (x + w, text_y + 5) color (-1))
              (name result) (x + 5, text_y - 10) 0.6 white 2)
           ("Confianza: " +:+ format_percent 1 (confidence result))
           (x + 5, text_y + 5) 0.4 white 1]> σ)
  ∧ (40 < y → 5 < text_y - 25 ∧ text_y + 5 < y)
  ∧ (y ≤ 40 → text_y - 25 = y + h).
Proof.
  intros Himage Hface Hbox color text_y. split.
  - unfold draw_result, copy.
    rewrite (deref_Some _ _ _ Himage), Hface, Hbox. simpl.
    by rewrite !draw_on_insert.
  - subst text_y. destruct (decide (40 < y)); split; lia.
Qed.

End drawing.

(** ** Sessions *)

(** X15. For every session exactly one of the two pages is shown: either
    the index redirects to the dashboard and the dashboard is rendered, or
    the dashboard redirects to the index and the login page is rendered. *)
Theorem index_dashboard_complementary (session : gmap string pyval) :
  (index session = Redirect "dashboard"
   ∧ ∃ context, dashboard session
                = Render "face_recognition_app/dashboard.html" context)
  ∨ (dashboard session = Redirect "index"
     ∧ index session = Render "face_recognition_app/login.html" ∅).
Proof.
  unfold index, dashboard.
  destruct (truthy (session_get session "authenticated" (PyBool false)));
    simpl; [left|right]; eauto.
Qed.

(** X16. After a logout, whatever the session was, the index shows the
    login page, the dashboard redirects to the index, and the session
    check reports no authentication and an empty user name. *)
Theorem logout_closes_session (session : gmap string pyval) :
  (logout_view session).1 = Redirect "index"
  ∧ index (logout_view session).2 = Render "face_recognition_app/login.html" ∅
  ∧ dashboard (logout_view session).2 = Redirect "index"
  ∧ check_session (logout_view session).2
    = {| status_authenticated := PyBool false; status_user_name := PyStr "" |}.
Proof. by split_and!. Qed.


Section sessions.
Context `{OpenCV}.

Lemma recognize_face_granted_session env now request st nm c gp tops rs msg :
  (recognize_face env now request st).1 = Recognition true nm c gp tops rs msg →
  session (recognize_face env now request st).2
  = <["login_time" := PyStr now]>
      (<["user_name" := PyStr nm]>
         (<["authenticated" := PyBool true]> (session st))).
Proof.
  unfold recognize_face.
  destruct (get_face_system env (face_system st)) as [[system|e] global];
    simpl; [|done].
  destruct request as [e| | |image]; simpl; try done.
  destruct (predict system image 0.80 0.20) as [d|e]; [|done].
  destruct (grants_session d); simpl; [|done]. by intros [= <- _ _ _ _ _].
Qed.

(** X17. The verification view never changes the session, whatever the
    request and whatever it answers. *)
Theorem verify_face_stream_keeps_session env request st :
  session (verify_face_stream env request st).2 = session st.
Proof.
  unfold verify_face_stream.
  destruct (get_face_system env (face_system st)) as [[system|e] global];
    simpl; [|done].
  destruct (frame_of request) as [response|image]; [done|].
  by destruct (verify_decision system image).
Qed.

(** X18. The login view changes the session only when it answers
    authorized: then it stores the authentication flag, the name it
    answers and the login time; in every other case, errors included, the
    session stays as it was. *)
Theorem recognize_face_session env now request st :
  match (recognize_face env now request st).1 with
  | Recognition true nm _ _ _ _ _ =>
      session (recognize_face env now request st).2
      = <["login_time" := PyStr now]>
          (<["user_name" := PyStr nm]>
             (<["authenticated" := PyBool true]> (session st)))
  | _ => session (recognize_face env now request st).2 = session st
  end.
Proof.
  unfold recognize_face.
  destruct (get_face_system env (face_system st)) as [[system|e] global];
    simpl; [|done].
  destruct request as [e| | |image]; simpl; try done.
  destruct (predict system image 0.80 0.20) as [d|e]; [|done].
  by destruct (grants_session d).
Qed.

(** X20. After the login view has answered authorized, the index redirects
    to the dashboard, the dashboard is rendered with the answered name and
    the login time, and the session check reports that name. *)
Theorem login_opens_dashboard env now request st nm c gp tops rs msg :
  (recognize_face env now request st).1 = Recognition true nm c gp tops rs msg →
  let session' := session (recognize_face env now request st).2 in
  index session' = Redirect "dashboard"
  ∧ dashboard session'
    = Render "face_recognition_app/dashboard.html"
        (<["login_time" := PyStr now]> (<["user_name" := PyStr nm]> ∅))
  ∧ check_session session'
    = {| status_authenticated := PyBool true; status_user_name := PyStr nm |}.
Proof.
  intros Hresp session'. subst session'.
  rewrite (recognize_face_granted_session _ _ _ _ _ _ _ _ _ _ Hresp).
  unfold index, dashboard, check_session, session_get.
  rewrite !lookup_insert_ne by done. rewrite !lookup_insert_eq.
  rewrite (lookup_insert_ne _ "login_time" "user_name") by done.
  rewrite !lookup_insert_eq. done.
Qed.

(** X21. The module keeps the system it has constructed: once a call of
    [get_face_system] has succeeded, every later call returns the same
    system without consulting the loaders; a failed construction leaves
    the module without a system, so that the next call constructs again. *)
Theorem get_face_system_caches env env' global :
  match get_face_system env global with
  | (Ok system, global') =>
      global' = Some system
      ∧ get_face_system env' global' = (Ok system, global')
  | (Raise e, global') =>
      global = None ∧ global' = None
      ∧ __init__ env MODEL_PATH LABEL_ENCODER_PATH = Raise e
  end.
Proof.
  unfold get_face_system. destruct global as [system|]; [done|].
  by destruct (__init__ env MODEL_PATH LABEL_ENCODER_PATH).
Qed.



End sessions.

(** ** Routes *)

(** X23. Every route resolves to its own pattern and every route name
    reverses to its own route; the redirects issued by the page views name
    routes that exist, the one of the index leading to the dashboard view
    and those of the dashboard and of the logout leading to the index
    view. *)
Theorem routes_round_trip :
  Forall (λ p, resolve (route p) = Some p
               ∧ reverse_url (url_name p) = Some (route p)) urlpatterns
  ∧ ∀ (session : gmap string pyval) to,
      (index session = Redirect to →
       ∃ p, reverse_url to = Some (route p) ∧ resolve (route p) = Some p
            ∧ view p = view_dashboard)
      ∧ (dashboard session = Redirect to ∨ (logout_view session).1 = Redirect to →
         ∃ p, reverse_url to = Some (route p) ∧ resolve (route p) = Some p
              ∧ view p = view_index).
Proof.
  split; [by repeat constructor|].
  intros session to. split.
  - unfold index. destruct (truthy _); [|done]. intros [= <-].
    by exists {| route := "dashboard/"; view := view_dashboard;
                 url_name := "dashboard" |}.
  - intros [Hto|Hto].
    + unfold dashboard in Hto. destruct (negb _); [|done]. injection Hto as <-.
      by exists {| route := ""; view := view_index; url_name := "index" |}.
    + injection Hto as <-.
      by exists {| route := ""; view := view_index; url_name := "index" |}.
Qed.

(** ** The properties on the sample data *)

Lemma alice_detect :
  detect_face (H := sample_cv2) alice_system sample_frame
  = Ok (Some (face_crop sample_frame sample_face, sample_face)).
Proof. vm_compute. reflexivity. Qed.

Lemma alice_classify :
  classify alice_system (face_crop sample_frame sample_face)
  = Ok [0.05; 0.92; 0.03]%Q.
Proof. reflexivity. Qed.

Lemma alice_predict :
  predict (H := sample_cv2) alice_system sample_frame 0.80 0.20
  = Ok alice_decision.
Proof. vm_compute. reflexivity. Qed.

Lemma unsure_predict :
  predict (H := sample_cv2) unsure_system sample_frame 0.80 0.20
  = Ok unsure_decision.
Proof. vm_compute. reflexivity. Qed.

Lemma alice_nonnegative : Forall (λ q, 0 <= q)%Q [0.05; 0.92; 0.03]%Q.
Proof. repeat constructor; unfold Qle; simpl; lia. Qed.

Lemma sample_frame_rectangular : rectangular sample_frame.
Proof.
  unfold rectangular, sample_frame. apply Forall_replicate.
  by rewrite length_replicate.
Qed.

Lemma sample_face_in_frame : in_frame sample_frame sample_face.
Proof. vm_compute. by split_and!. Qed.

Lemma predict_confidence_is_maximum_witness :
  predict (H := sample_cv2) alice_system sample_frame 0.80 0.20 = Ok alice_decision
  ∧ face_detected alice_decision = true
  ∧ ∃ face box p,
      detect_face (H := sample_cv2) alice_system sample_frame
      = Ok (Some (face, box))
      ∧ classify alice_system face = Ok p
      ∧ confidence alice_decision ∈ p
      ∧ Forall (λ q, q <= confidence alice_decision)%Q p.
Proof.
  split; [exact alice_predict|]. split; [reflexivity|].
  exact (predict_confidence_is_maximum (H := sample_cv2) alice_system
           sample_frame 0.80 0.20 alice_decision alice_predict eq_refl).
Defined.

Lemma predict_gap_range_witness :
  detect_face (H := sample_cv2) alice_system sample_frame
  = Ok (Some (face_crop sample_frame sample_face, sample_face))
  ∧ classify alice_system (face_crop sample_frame sample_face)
    = Ok [0.05; 0.92; 0.03]%Q
  ∧ Forall (λ q, 0 <= q)%Q [0.05; 0.92; 0.03]%Q
  ∧ predict (H := sample_cv2) alice_system sample_frame 0.80 0.20
    = Ok alice_decision
  ∧ (0 <= confidence_gap alice_decision)%Q
  ∧ (confidence_gap alice_decision <= confidence alice_decision)%Q.
Proof.
  split; [exact alice_detect|]. split; [exact alice_classify|].
  split; [exact alice_nonnegative|]. split; [exact alice_predict|].
  exact (predict_gap_range (H := sample_cv2) alice_system sample_frame 0.80 0.20
           _ _ _ alice_decision alice_detect alice_classify alice_nonnegative
           alice_predict).
Defined.

Lemma top_prediction_heads_decision_witness :
  predict (H := sample_cv2) alice_system sample_frame 0.80 0.20 = Ok alice_decision
  ∧ face_detected alice_decision = true
  ∧ ∃ e, top_predictions alice_decision !! 0%nat = Some e
         ∧ class_confidence e = confidence alice_decision
         ∧ (authorized alice_decision = true → class e = name alice_decision).
Proof.
  split; [exact alice_predict|]. split; [reflexivity|].
  exact (top_prediction_heads_decision (H := sample_cv2) alice_system
           sample_frame 0.80 0.20 alice_decision alice_predict eq_refl).
Defined.

Lemma predict_low_confidence_reasons_witness :
  predict (H := sample_cv2) unsure_system sample_frame 0.80 0.20
  = Ok unsure_decision
  ∧ face_detected unsure_decision = true
  ∧ (confidence unsure_decision < 0.80)%Q
  ∧ (confidence_gap unsure_decision < 0.20)%Q
  ∧ authorized unsure_decision = false
  ∧ name unsure_decision = "Desconocido"
  ∧ rejection_reasons unsure_decision
    = [confidence_too_low (confidence unsure_decision) 0.80;
       gap_too_small (confidence_gap unsure_decision) 0.20].
Proof.
  assert (confidence unsure_decision < 0.80)%Q as Hlow by reflexivity.
  assert (confidence_gap unsure_decision < 0.20)%Q as Hgap by reflexivity.
  destruct (predict_low_confidence_reasons (H := sample_cv2) unsure_system
              sample_frame 0.80 0.20 unsure_decision unsure_predict eq_refl Hlow)
    as (Hauth & Hname & Hboth & _).
  split; [exact unsure_predict|]. split; [reflexivity|].
  split; [exact Hlow|]. split; [exact Hgap|].
  split; [exact Hauth|]. split; [exact Hname|]. exact (Hboth Hgap).
Defined.

Lemma predict_authorized_at_lower_thresholds_witness :
  predict (H := sample_cv2) alice_system sample_frame 0.80 0.20 = Ok alice_decision
  ∧ authorized alice_decision = true
  ∧ (0.75 <= 0.80)%Q ∧ (0.20 <= 0.20)%Q
  ∧ predict (H := sample_cv2) alice_system sample_frame 0.75 0.20
    = Ok alice_decision.
Proof.
  assert (0.75 <= 0.80)%Q as Ht by (unfold Qle; simpl; lia).
  assert (0.20 <= 0.20)%Q as Hg by (unfold Qle; simpl; lia).
  split; [exact alice_predict|]. split; [reflexivity|].
  split; [exact Ht|]. split; [exact Hg|].
  exact (predict_authorized_at_lower_thresholds (H := sample_cv2) alice_system
           sample_frame 0.80 0.20 0.75 0.20 alice_decision alice_predict eq_refl
           Ht Hg).
Defined.

Lemma predict_measures_ignore_thresholds_witness :
  predict (H := sample_cv2) alice_system sample_frame 0.80 0.20 = Ok alice_decision
  ∧ ∃ d', predict (H := sample_cv2) alice_system sample_frame 0.95 0.50 = Ok d'
          ∧ confidence d' = confidence alice_decision
          ∧ confidence_gap d' = confidence_gap alice_decision
          ∧ face_detected d' = face_detected alice_decision
          ∧ face_box d' = face_box alice_decision
          ∧ top_predictions d' = top_predictions alice_decision.
Proof.
  split; [exact alice_predict|].
  exact (predict_measures_ignore_thresholds (H := sample_cv2) alice_system
           sample_frame 0.80 0.20 0.95 0.50 alice_decision alice_predict).
Defined.

Lemma login_frame_passes_verification_witness :
  let st := {| face_system := Some alice_system; session := ∅ |} in
  face_system st = Some alice_system
  ∧ (recognize_face (H := sample_cv2) broken_loaders "2026-01-01 00:00:00"
       (BodyFrame sample_frame) st).1
    = Recognition true "Alice" 0.92 (0.92 - 0.05)
        (top_predictions alice_decision) ["authorized"] "¡Bienvenido/a Alice!"
  ∧ (verify_face_stream (H := sample_cv2) broken_loaders
       (BodyFrame sample_frame) st).1
    = Verification "Alice" 0.92 true true.
Proof.
  intros st.
  assert ((recognize_face (H := sample_cv2) broken_loaders "2026-01-01 00:00:00"
             (BodyFrame sample_frame) st).1
          = Recognition true "Alice" 0.92 (0.92 - 0.05)
              (top_predictions alice_decision) ["authorized"]
              "¡Bienvenido/a Alice!") as Hlogin by (vm_compute; reflexivity).
  split; [reflexivity|]. split; [exact Hlogin|].
  exact (login_frame_passes_verification (H := sample_cv2) broken_loaders
           "2026-01-01 00:00:00" alice_system sample_frame st _ _ _ _ _ _
           eq_refl Hlogin).
Defined.


Lemma draw_result_of_predict_witness :
  predict (H := sample_cv2) alice_system sample_frame 0.80 0.20 = Ok alice_decision
  ∧ is_ok (draw_result (H := sample_cv2) 1%positive alice_decision
             sample_store).1 = true.
Proof.
  split; [exact alice_predict|].
  exact (draw_result_of_predict (H := sample_cv2) alice_system sample_frame
           0.80 0.20 alice_decision 1%positive sample_store alice_predict).
Defined.


Lemma detect_face_in_frame_witness :
  rectangular sample_frame
  ∧ face_cascade alice_system (cv2_BGR2GRAY (OpenCV := sample_cv2) sample_frame)
      1.1 5 (60, 60) = [sample_face]
  ∧ Forall (in_frame sample_frame) [sample_face]
  ∧ ∃ x y w h,
      detect_face (H := sample_cv2) alice_system sample_frame
      = Ok (Some (cv2_resize (OpenCV := sample_cv2)
                    (face_crop sample_frame (x, y, w, h)) (160, 160),
                  (x, y, w, h)))
      ∧ h ≤ shape0 (face_crop sample_frame (x, y, w, h)) ≤ h + 40
      ∧ w ≤ shape1 (face_crop sample_frame (x, y, w, h)) ≤ w + 40.
Proof.
  assert (Forall (in_frame sample_frame) [sample_face]) as Hin
    by (constructor; [exact sample_face_in_frame|constructor]).
  split; [exact sample_frame_rectangular|]. split; [reflexivity|].
  split; [exact Hin|].
  exact (detect_face_in_frame (H := sample_cv2) alice_system sample_frame
           sample_face [] sample_frame_rectangular eq_refl Hin).
Defined.

Lemma crop_covers_box_witness :
  in_frame sample_frame (30, 10, 60, 60)
  ∧ 10 ≤ 69 < 10 + 60 ∧ 30 ≤ 30 < 30 + 60
  ∧ (69, 30) ∈ crop_coords sample_frame (30, 10, 60, 60).
Proof.
  assert (10 ≤ 69 < 10 + 60) as Hr by lia.
  assert (30 ≤ 30 < 30 + 60) as Hc by lia.
  split; [exact sample_face_in_frame|]. split; [exact Hr|]. split; [exact Hc|].
  exact (crop_covers_box sample_frame 30 10 60 60 69 30 sample_face_in_frame Hr Hc).
Defined.


Lemma draw_result_face_witness :
  sample_store !! 1%positive = Some sample_frame
  ∧ face_detected alice_decision = true
  ∧ face_box alice_decision = Some (30, 10, 60, 60)
  ∧ (draw_result (H := sample_cv2) 1%positive alice_decision sample_store).1
    = Ok (fresh (dom sample_store)).
Proof.
  assert (sample_store !! 1%positive = Some sample_frame) as Hframe by reflexivity.
  split; [exact Hframe|]. split; [reflexivity|]. split; [reflexivity|].
  destruct (draw_result_face (H := sample_cv2) 1%positive alice_decision
              sample_store sample_frame 30 10 60 60 Hframe eq_refl eq_refl)
    as [-> _].
  reflexivity.
Defined.


Lemma login_opens_dashboard_witness :
  let st := {| face_system := Some alice_system; session := ∅ |} in
  let out := recognize_face (H := sample_cv2) broken_loaders
               "2026-01-01 00:00:00" (BodyFrame sample_frame) st in
  out.1 = Recognition true "Alice" 0.92 (0.92 - 0.05)
            (top_predictions alice_decision) ["authorized"]
            "¡Bienvenido/a Alice!"
  ∧ index (session out.2) = Redirect "dashboard"
  ∧ dashboard (session out.2)
    = Render "face_recognition_app/dashboard.html"
        (<["login_time" := PyStr "2026-01-01 00:00:00"]>
           (<["user_name" := PyStr "Alice"]> ∅))
  ∧ check_session (session out.2)
    = {| status_authenticated := PyBool true;
         status_user_name := PyStr "Alice" |}.
Proof.
  intros st out.
  assert (out.1 = Recognition true "Alice" 0.92 (0.92 - 0.05)
                    (top_predictions alice_decision) ["authorized"]
                    "¡Bienvenido/a Alice!") as Hlogin by (vm_compute; reflexivity).
  split; [exact Hlogin|].
  exact (login_opens_dashboard (H := sample_cv2) broken_loaders
           "2026-01-01 00:00:00" (BodyFrame sample_frame) st _ _ _ _ _ _ Hlogin).
Defined.


Lemma routes_round_trip_witness :
  let session : gmap string pyval := {[ "authenticated" := PyBool true ]} in
  index session = Redirect "dashboard"
  ∧ ∃ p, reverse_url "dashboard" = Some (route p)
         ∧ resolve (route p) = Some p ∧ view p = view_dashboard.
Proof.
  intros session.
  assert (index session = Redirect "dashboard") as Hindex by reflexivity.
  split; [exact Hindex|].
  exact (proj1 (proj2 routes_round_trip session "dashboard") Hindex).
Defined.
